(** * mongo-orm: the class metadata registry ([ReflectUtils]) and the
      [Field] decorator, embedded in Rocq.

    The development follows [src/classes/ReflectUtils.ts] and the [Field]
    decorator.  JavaScript state (the reflect-metadata store, the own
    properties of the class prototypes) is threaded explicitly through a
    state-and-exception monad: a [throw] keeps every write made before it,
    as it does in JavaScript. *)

From stdpp Require Import gmap strings list.

(** ** Classes

    A class constructor is known by its name and by the class it extends.
    [class_ n] is [class n {}], [class_extends n B] is [class n extends B {}].
    For a constructor [C] declared with [extends B],
    [Object.getPrototypeOf(C) === B]. *)

Inductive Class : Set :=
| class_ (name : string)
| class_extends (name : string) (super : Class).

Definition getPrototypeOf (c : Class) : option Class :=
  match c with
  | class_ _ => None
  | class_extends _ b => Some b
  end.

Fixpoint class_names (c : Class) : list string :=
  match c with
  | class_ n => [n]
  | class_extends n b => n :: class_names b
  end.

Fixpoint class_of_names (l : list string) : option Class :=
  match l with
  | [] => None
  | [n] => Some (class_ n)
  | n :: ns => class_extends n <$> class_of_names ns
  end.

Lemma class_of_names_names c : class_of_names (class_names c) = Some c.
Proof.
  induction c as [n|n b IH]; [done|].
  cbn [class_names class_of_names]. rewrite IH.
  by destruct b.
Qed.

#[global] Instance Class_eq_dec : EqDecision Class.
Proof. solve_decision. Defined.

#[global] Instance Class_countable : Countable Class :=
  inj_countable class_names class_of_names class_of_names_names.

(** ** Field descriptors *)

(** A JavaScript value, as far as [defaultValue: any] needs one. *)
Inductive JsValue : Set :=
| JsNull
| JsBoolean (b : bool)
| JsNumber (z : Z)
| JsString (s : string).

#[global] Instance JsValue_eq_dec : EqDecision JsValue.
Proof. solve_decision. Defined.

(** Modelled from the spec: [TAnyFieldType] is declared in [src/types],
    which is not part of the sources at hand; the spec calls it "the field's
    value type tag (explicit or inferred from the declaration site)". *)
Definition TAnyFieldType : Set := string.

(** The raw descriptor.  The object literal that [Field] builds carries
    [isIdentifier] and no [isPrimary] property; [ReflectUtils.addOwnField]
    reads [isPrimary].  Both properties are kept, [isPrimary] being [None]
    where the object has no such property ([undefined] when read). *)
Record IFieldMeta : Set := {
  classPropertyName : string;
  dbPropertyName : string;
  defaultValue : option JsValue;
  isNullable : bool;
  isIdentifier : bool;
  isPrimary : option bool;
  type : TAnyFieldType;
}.

#[global] Instance IFieldMeta_eq_dec : EqDecision IFieldMeta.
Proof. solve_decision. Defined.

Record IUnpackedFieldMeta : Set := {
  u_classPropertyName : string;
  u_dbPropertyName : string;
  u_defaultValue : option JsValue;
  u_isNullable : bool;
  u_isPrimary : bool;
  u_type : TAnyFieldType;
}.

#[global] Instance IUnpackedFieldMeta_eq_dec : EqDecision IUnpackedFieldMeta.
Proof. solve_decision. Defined.

(** Modelled from the spec: [unpackField] lives in [src/utils], which is not
    part of the sources at hand.  The spec: resolution "applies `nullable`
    default, copies `dbPropertyName`/`defaultValue`/`type`, normalizes
    `isIdentifier` into `isPrimary`". *)
Definition unpackField (f : IFieldMeta) : IUnpackedFieldMeta :=
  {| u_classPropertyName := classPropertyName f;
     u_dbPropertyName := dbPropertyName f;
     u_defaultValue := defaultValue f;
     u_isNullable := isNullable f;
     u_isPrimary := isIdentifier f;
     u_type := type f |}.

(** Truthiness of an optional boolean property, as [f.isPrimary] is used
    under [&&] inside an [if]. *)
Definition truthy_flag (b : option bool) : bool := default false b.

(** ** Metadata keys and the values stored under them *)

Inductive EMetaDataKey : Set :=
| AreFieldsApplied
| Collection
| Fields
| ObjectType
| UnpackedFields.

#[global] Instance EMetaDataKey_eq_dec : EqDecision EMetaDataKey.
Proof. solve_decision. Defined.

Inductive TObjectType : Set := model | data_mapper.

#[global] Instance TObjectType_eq_dec : EqDecision TObjectType.
Proof. solve_decision. Defined.

Definition IMetaValuesMap (k : EMetaDataKey) : Set :=
  match k with
  | AreFieldsApplied => bool
  | Collection => string
  | Fields => list IFieldMeta
  | ObjectType => TObjectType
  | UnpackedFields => list IUnpackedFieldMeta
  end.

(** JavaScript truthiness of a stored value: [false] and the empty string are
    falsy; arrays (also empty ones) and the two non-empty object-type strings
    are truthy. *)
Definition truthy {k : EMetaDataKey} : IMetaValuesMap k → bool :=
  match k with
  | AreFieldsApplied => λ b, b
  | Collection => λ s, bool_decide (s ≠ EmptyString)
  | Fields => λ _, true
  | ObjectType => λ _, true
  | UnpackedFields => λ _, true
  end.

(** ** The reflect-metadata store

    One metadata map per target object.  Every call of [ReflectUtils] passes
    a class constructor as target and no property key, so the store is keyed
    by the class alone. *)

Record MetadataMap : Set := {
  md_AreFieldsApplied : option bool;
  md_Collection : option string;
  md_Fields : option (list IFieldMeta);
  md_ObjectType : option TObjectType;
  md_UnpackedFields : option (list IUnpackedFieldMeta);
}.

Definition md_empty : MetadataMap :=
  {| md_AreFieldsApplied := None; md_Collection := None; md_Fields := None;
     md_ObjectType := None; md_UnpackedFields := None |}.

Definition md_get (k : EMetaDataKey) (m : MetadataMap) : option (IMetaValuesMap k) :=
  match k with
  | AreFieldsApplied => md_AreFieldsApplied m
  | Collection => md_Collection m
  | Fields => md_Fields m
  | ObjectType => md_ObjectType m
  | UnpackedFields => md_UnpackedFields m
  end.

Definition md_set (k : EMetaDataKey) : IMetaValuesMap k → MetadataMap → MetadataMap :=
  match k with
  | AreFieldsApplied => λ v m,
      {| md_AreFieldsApplied := Some v; md_Collection := md_Collection m;
         md_Fields := md_Fields m; md_ObjectType := md_ObjectType m;
         md_UnpackedFields := md_UnpackedFields m |}
  | Collection => λ v m,
      {| md_AreFieldsApplied := md_AreFieldsApplied m; md_Collection := Some v;
         md_Fields := md_Fields m; md_ObjectType := md_ObjectType m;
         md_UnpackedFields := md_UnpackedFields m |}
  | Fields => λ v m,
      {| md_AreFieldsApplied := md_AreFieldsApplied m; md_Collection := md_Collection m;
         md_Fields := Some v; md_ObjectType := md_ObjectType m;
         md_UnpackedFields := md_UnpackedFields m |}
  | ObjectType => λ v m,
      {| md_AreFieldsApplied := md_AreFieldsApplied m; md_Collection := md_Collection m;
         md_Fields := md_Fields m; md_ObjectType := Some v;
         md_UnpackedFields := md_UnpackedFields m |}
  | UnpackedFields => λ v m,
      {| md_AreFieldsApplied := md_AreFieldsApplied m; md_Collection := md_Collection m;
         md_Fields := md_Fields m; md_ObjectType := md_ObjectType m;
         md_UnpackedFields := Some v |}
  end.

Module Reflect.

(** The operations of the reflect-metadata package that [ReflectUtils]
    calls.  [defineMetadata] writes the target's own entry.  [getMetadata]
    and [hasMetadata] are the package's OrdinaryGetMetadata and
    OrdinaryHasMetadata: they look at the target's own entry and, when
    there is none, continue with the target's prototype, which for a class
    constructor is the class it extends.  Past a root class the chain goes on
    to [Function.prototype] and [Object.prototype], on which no call of
    [ReflectUtils] defines metadata, so the lookup ends there with nothing.
    (The own-only lookups of the package are [getOwnMetadata] and
    [hasOwnMetadata]; [ReflectUtils] calls neither.) *)

Definition getOwnMetadata (k : EMetaDataKey) (store : gmap Class MetadataMap)
    (target : Class) : option (IMetaValuesMap k) :=
  store !! target ≫= md_get k.

Definition hasOwnMetadata (k : EMetaDataKey) (store : gmap Class MetadataMap)
    (target : Class) : bool :=
  bool_decide (is_Some (getOwnMetadata k store target)).

Fixpoint getMetadata (k : EMetaDataKey) (store : gmap Class MetadataMap)
    (target : Class) : option (IMetaValuesMap k) :=
  match getOwnMetadata k store target with
  | Some v => Some v
  | None =>
      match target with
      | class_ _ => None
      | class_extends _ parent => getMetadata k store parent
      end
  end.

Fixpoint hasMetadata (k : EMetaDataKey) (store : gmap Class MetadataMap)
    (target : Class) : bool :=
  if hasOwnMetadata k store target then true
  else match target with
       | class_ _ => false
       | class_extends _ parent => hasMetadata k store parent
       end.

Definition defineMetadata (k : EMetaDataKey) (v : IMetaValuesMap k)
    (target : Class) (store : gmap Class MetadataMap) : gmap Class MetadataMap :=
  <[target := md_set k v (default md_empty (store !! target))]> store.

End Reflect.

(** ** Prototype objects and [Object.defineProperty] *)

(** The functions that [applyFields] creates: the getter and the setter of a
    field close over the field's [dbPropertyName] and go through
    [this.__document]. *)
Inductive JsFunction : Set :=
| DocumentGetter (dbPropertyName : string)
| DocumentSetter (dbPropertyName : string).

(** The attributes object handed to [Object.defineProperty]; a field is
    [None] when the object has no such property. *)
Record PropertyDescriptor : Set := {
  pd_get : option JsFunction;
  pd_set : option JsFunction;
  pd_value : option JsValue;
  pd_writable : option bool;
  pd_enumerable : option bool;
  pd_configurable : option bool;
}.

(** An own property of an object. *)
Inductive Property : Set :=
| DataProperty (value : option JsValue) (writable enumerable configurable : bool)
| AccessorProperty (get set : option JsFunction) (enumerable configurable : bool).

Definition prop_enumerable (p : Property) : bool :=
  match p with
  | DataProperty _ _ e _ => e
  | AccessorProperty _ _ e _ => e
  end.

Definition prop_configurable (p : Property) : bool :=
  match p with
  | DataProperty _ _ _ c => c
  | AccessorProperty _ _ _ c => c
  end.

Definition IsAccessorDescriptor (d : PropertyDescriptor) : bool :=
  bool_decide (is_Some (pd_get d)) || bool_decide (is_Some (pd_set d)).

Definition IsDataDescriptor (d : PropertyDescriptor) : bool :=
  bool_decide (is_Some (pd_value d)) || bool_decide (is_Some (pd_writable d)).

(** ECMAScript ToPropertyDescriptor, last step: an attributes object with a
    [get] or [set] field and also a [value] or [writable] field is rejected
    with a TypeError.  A field counts as present whatever its value. *)
Definition ToPropertyDescriptor (d : PropertyDescriptor) : option PropertyDescriptor :=
  if IsAccessorDescriptor d && IsDataDescriptor d then None else Some d.

(** The property a descriptor creates on an object that has none of that
    name: absent attributes take their defaults. *)
Definition new_property (d : PropertyDescriptor) : Property :=
  if IsAccessorDescriptor d
  then AccessorProperty (pd_get d) (pd_set d)
         (default false (pd_enumerable d)) (default false (pd_configurable d))
  else DataProperty (pd_value d) (default false (pd_writable d))
         (default false (pd_enumerable d)) (default false (pd_configurable d)).

(** The property after a permitted redefinition: present attributes replace
    the current ones; a change of kind resets the attributes of the other
    kind to their defaults. *)
Definition updated_property (cur : Property) (d : PropertyDescriptor) : Property :=
  let e := default (prop_enumerable cur) (pd_enumerable d) in
  let c := default (prop_configurable cur) (pd_configurable d) in
  match cur with
  | DataProperty v w _ _ =>
      if IsAccessorDescriptor d then AccessorProperty (pd_get d) (pd_set d) e c
      else DataProperty (from_option Some v (pd_value d)) (default w (pd_writable d)) e c
  | AccessorProperty g s _ _ =>
      if IsDataDescriptor d then DataProperty (pd_value d) (default false (pd_writable d)) e c
      else AccessorProperty (from_option Some g (pd_get d)) (from_option Some s (pd_set d)) e c
  end.

(** ECMAScript ValidateAndApplyPropertyDescriptor on an extensible object.
    On a non-configurable property a change of [configurable], of
    [enumerable] or of kind is rejected; so is any [get] or [set] field
    (function objects created for the call are never the stored ones), and
    on a non-writable data property a [writable: true] or another value. *)
Definition ValidateAndApplyPropertyDescriptor (current : option Property)
    (d : PropertyDescriptor) : option Property :=
  match current with
  | None => Some (new_property d)
  | Some cur =>
      if prop_configurable cur then Some (updated_property cur d)
      else if bool_decide (pd_configurable d = Some true) then None
      else if bool_decide (is_Some (pd_enumerable d) ∧ pd_enumerable d ≠ Some (prop_enumerable cur))
      then None
      else if IsAccessorDescriptor d then None
      else match cur with
           | AccessorProperty _ _ _ _ =>
               if IsDataDescriptor d then None else Some cur
           | DataProperty v w _ _ =>
               if w then Some (updated_property cur d)
               else if bool_decide (pd_writable d = Some true) then None
               else if bool_decide (is_Some (pd_value d) ∧ pd_value d ≠ v) then None
               else Some cur
           end
  end.

(** [Object.defineProperty(O, P, Attributes)] on the own properties of [O]:
    [None] stands for the TypeError it throws. *)
Definition Object_defineProperty (O : gmap string Property) (P : string)
    (Attributes : PropertyDescriptor) : option (gmap string Property) :=
  d ← ToPropertyDescriptor Attributes;
  p ← ValidateAndApplyPropertyDescriptor (O !! P) d;
  Some (<[P := p]> O).

(** ** Program state, errors and the monad *)

Record State : Type := {
  metadata : gmap Class MetadataMap;
  (** own properties of [C.prototype], per class [C] *)
  prototypes : gmap Class (gmap string Property);
  (** ghost: the classes for which [.map(unpackField)] has been run, most
      recent first *)
  unpackLog : list Class;
}.

Definition initial_state : State :=
  {| metadata := ∅; prototypes := ∅; unpackLog := [] |}.

(** The conflicting fields carried by [PrimaryKeyAlreadyDefinedError] are raw
    descriptors when thrown by [addOwnField] and unpacked ones when thrown by
    [collectModelInformation]. *)
Inductive AnyFieldMeta : Set :=
| RawField (f : IFieldMeta)
| UnpackedField (f : IUnpackedFieldMeta).

Inductive Error : Set :=
| PropertyAlreadyDefinedError (prevField currentField : IFieldMeta)
| PrimaryKeyAlreadyDefinedError (Model : Class) (prevField currentField : AnyFieldMeta)
| ModelNotFoundError (target : Class)
| EmptyFieldsListError (Model : Class)
| PrimaryKeyNotDefinedError (Model : Class)
| TypeError.

Inductive Completion (A : Type) : Type :=
| Normal (a : A)
| Throw (e : Error).
Arguments Normal {A} a.
Arguments Throw {A} e.

Definition M (A : Type) : Type := State → Completion A * State.

Definition ret {A} (a : A) : M A := λ s, (Normal a, s).

Definition bind {A B} (m : M A) (k : A → M B) : M B :=
  λ s, match m s with
       | (Normal a, s') => k a s'
       | (Throw e, s') => (Throw e, s')
       end.

Definition throw {A} (e : Error) : M A := λ s, (Throw e, s).

Definition gets {A} (f : State → A) : M A := λ s, (Normal (f s), s).

Definition modify (f : State → State) : M () := λ s, (Normal (), f s).

Declare Scope js_scope.
Delimit Scope js_scope with js.
Notation "'let!' x ':=' m 'in' k" := (bind m (λ x, k))
  (at level 10, x pattern, m at level 100, k at level 200,
   format "'[v' 'let!'  x  ':='  m  'in' '/' k ']'") : js_scope.
Notation "m ';;;' k" := (bind m (λ _, k))
  (at level 100, k at level 200, right associativity) : js_scope.
Open Scope js_scope.

(** [array.forEach(body)] *)
Fixpoint forEach {A} (l : list A) (body : A → M ()) : M () :=
  match l with
  | [] => ret ()
  | x :: l' => body x ;;; forEach l' body
  end.

(** [for (const x of array) body], the variables assigned in the body being
    passed along as [acc]. *)
Fixpoint for_of {A B} (l : list A) (body : A → B → M B) (acc : B) : M B :=
  match l with
  | [] => ret acc
  | x :: l' => let! acc' := body x acc in for_of l' body acc'
  end.

(** Modelled from the spec: [whileHasParentConstructor] lives in [src/utils],
    which is not part of the sources at hand.  The spec (Hierarchy Walker):
    "given a starting class, produce a sequence of classes consisting of the
    class itself followed by each ancestor in the constructor chain, stopping
    at the root [...]. For each class in that sequence, invoke a supplied
    visitor."  The array the visitor closes over and pushes to is passed
    along as [acc]. *)
Fixpoint whileHasParentConstructor {A} (target : Class)
    (visitor : Class → A → M A) (acc : A) : M A :=
  let! acc' := visitor target acc in
  match target with
  | class_ _ => ret acc'
  | class_extends _ parent => whileHasParentConstructor parent visitor acc'
  end.

(** [Object.defineProperty(target.prototype, P, Attributes)] *)
Definition defineProperty_prototype (target : Class) (P : string)
    (Attributes : PropertyDescriptor) : M () :=
  λ s, match Object_defineProperty (default ∅ (prototypes s !! target)) P Attributes with
       | None => (Throw TypeError, s)
       | Some o =>
           (Normal (),
            {| metadata := metadata s;
               prototypes := <[target := o]> (prototypes s);
               unpackLog := unpackLog s |})
       end.

(** Ghost step: one more run of [.map(unpackField)], for [target]. *)
Definition log_unpack (target : Class) : M () :=
  modify (λ s, {| metadata := metadata s; prototypes := prototypes s;
                  unpackLog := target :: unpackLog s |}).

Record IModelInformation : Set := {
  collection : string;
  primaryField : IUnpackedFieldMeta;
  fields : list IUnpackedFieldMeta;
}.

(** ** [ReflectUtils]

    [getReflectedType] reads a key of another kind (design:type) and
    [isCompleteModel] names metadata keys that [EMetaDataKey] does not
    declare; neither is called by the other members, and both are left
    out. *)

Module ReflectUtils.

(** [Reflect.getMetadata(key, target) || null]; [None] is [null]. *)
Definition get (key : EMetaDataKey) (target : Class) (s : State)
    : option (IMetaValuesMap key) :=
  match Reflect.getMetadata key (metadata s) target with
  | Some v => if truthy v then Some v else None
  | None => None
  end.

Definition has (key : EMetaDataKey) (target : Class) (s : State) : bool :=
  Reflect.hasMetadata key (metadata s) target.

Definition set (key : EMetaDataKey) (value : IMetaValuesMap key) (target : Class) : M () :=
  modify (λ s, {| metadata := Reflect.defineMetadata key value target (metadata s);
                  prototypes := prototypes s;
                  unpackLog := unpackLog s |}).

(** [this.get(EMetaDataKey.Fields, target) || []] *)
Definition getOwnFields (target : Class) (s : State) : list IFieldMeta :=
  default [] (get Fields target s).

Definition getFields (target : Class) : M (list IFieldMeta) :=
  whileHasParentConstructor target
    (λ ctr fields, let! own := gets (getOwnFields ctr) in ret (fields ++ own))
    [].

Definition addOwnField (target : Class) (fieldMeta : IFieldMeta) : M () :=
  let! fields := getFields target in
  forEach fields (λ f,
    if truthy_flag (isPrimary f) && truthy_flag (isPrimary fieldMeta)
    then throw (PrimaryKeyAlreadyDefinedError target (RawField f) (RawField fieldMeta))
    else if bool_decide (classPropertyName f = classPropertyName fieldMeta)
    then throw (PropertyAlreadyDefinedError f fieldMeta)
    else ret ()) ;;;
  let! own := gets (getOwnFields target) in
  set Fields (own ++ [fieldMeta]) target.

Definition getUnpackedOwnFields (target : Class) : M (list IUnpackedFieldMeta) :=
  let! unpacked := gets (get UnpackedFields target) in
  match unpacked with
  | Some unpacked => ret unpacked
  | None =>
      let! own := gets (getOwnFields target) in
      log_unpack target ;;;
      let unpacked := map unpackField own in
      set UnpackedFields unpacked target ;;;
      ret unpacked
  end.

Definition getUnpackedFields (target : Class) : M (list IUnpackedFieldMeta) :=
  whileHasParentConstructor target
    (λ ctr fields, let! own := getUnpackedOwnFields ctr in ret (fields ++ own))
    [].

(** The attributes object that [applyFields] passes for field [f]. *)
Definition accessor_attributes (f : IUnpackedFieldMeta) : PropertyDescriptor :=
  {| pd_get := Some (DocumentGetter (u_dbPropertyName f));
     pd_set := Some (DocumentSetter (u_dbPropertyName f));
     pd_value := None;
     pd_writable := Some false;
     pd_enumerable := Some true;
     pd_configurable := Some false |}.

Definition applyFields (target : Class) : M () :=
  let! applied := gets (get AreFieldsApplied target) in
  let isAlreadyApplied := bool_decide (applied = Some true) in
  if isAlreadyApplied then ret ()
  else
    let! fields := getUnpackedFields target in
    forEach fields (λ f,
      defineProperty_prototype target (u_classPropertyName f) (accessor_attributes f)) ;;;
    set AreFieldsApplied true target.

Definition collectModelInformation (target : Class) : M IModelInformation :=
  let! collection := gets (get Collection target) in
  match collection with
  | None => throw (ModelNotFoundError target)
  | Some collection =>
      let! fields := getUnpackedFields target in
      if bool_decide (length fields = 0) then throw (EmptyFieldsListError target)
      else
        let! primaryField :=
          for_of fields (λ f primaryField,
            if u_isPrimary f then
              match primaryField with
              | Some prev =>
                  throw (PrimaryKeyAlreadyDefinedError target
                           (UnpackedField prev) (UnpackedField f))
              | None => ret (Some f)
              end
            else ret primaryField) None in
        match primaryField with
        | None => throw (PrimaryKeyNotDefinedError target)
        | Some primaryField =>
            ret {| collection := collection; primaryField := primaryField;
                   fields := fields |}
        end
  end.

Definition defineModel (target : Class) (collection : string) : M () :=
  set Collection collection target ;;;
  set ObjectType model target.

Definition defineDataMapper (target : Class) : M () :=
  set ObjectType data_mapper target.

Definition isModel (target : Class) (s : State) : bool :=
  bool_decide (get ObjectType target s = Some model).

Definition isDataMapper (target : Class) (s : State) : bool :=
  bool_decide (get ObjectType target s = Some data_mapper).

End ReflectUtils.

(** ** The [Field] decorator *)

(** The options object of [Field]; a field is [None] when the object has no
    such property. *)
Record TAnyFieldOptions : Set := {
  o_type : option TAnyFieldType;
  o_nullable : option bool;
  o_name : option string;
  o_defaultValue : option JsValue;
  o_id : option bool;
}.

Section Decorators.

(** [getReflectedSupportedType] (type inference from the declaration site)
    is not part of the sources at hand; it is taken as given. *)
Variable getReflectedSupportedType : Class → string → TAnyFieldType.

(** [Field(typeOrOptions)(target, propertyKey)], with [Model] for
    [target.constructor]. *)
Definition Field (typeOrOptions : option TAnyFieldOptions)
    (Model : Class) (propertyKey : string) : M () :=
  let isNullable := true in
  let dbPropertyName := propertyKey in
  let defaultValue := None in
  let isIdentifier := false in
  match typeOrOptions with
  | None =>
      ReflectUtils.addOwnField Model
        {| classPropertyName := propertyKey;
           dbPropertyName := dbPropertyName;
           defaultValue := defaultValue;
           isNullable := isNullable;
           isIdentifier := isIdentifier;
           isPrimary := None;
           type := getReflectedSupportedType Model propertyKey |}
  | Some options =>
      ReflectUtils.addOwnField Model
        {| classPropertyName := propertyKey;
           dbPropertyName := default dbPropertyName (o_name options);
           defaultValue := o_defaultValue options;
           isNullable := default isNullable (o_nullable options);
           isIdentifier := default isIdentifier (o_id options);
           isPrimary := None;
           type := default (getReflectedSupportedType Model propertyKey)
                     (o_type options) |}
  end.

End Decorators.

(** * Notions used in the statements *)

(** The constructor chain of a class: the class, then its ancestors. *)
Fixpoint constructors (c : Class) : list Class :=
  c :: match c with
       | class_ _ => []
       | class_extends _ parent => constructors parent
       end.

Fixpoint depth (c : Class) : nat :=
  match c with
  | class_ _ => 0
  | class_extends _ parent => S (depth parent)
  end.

(** The list [getFields] builds: the list read for the class, then the lists
    read for its ancestors. *)
Definition visible_fields (target : Class) (s : State) : list IFieldMeta :=
  flat_map (λ ctr, ReflectUtils.getOwnFields ctr s) (constructors target).

(** The conflict test of [addOwnField] between a listed field [f] and the
    new descriptor, and the error it raises. *)
Definition conflicts (fieldMeta f : IFieldMeta) : bool :=
  (truthy_flag (isPrimary f) && truthy_flag (isPrimary fieldMeta))
  || bool_decide (classPropertyName f = classPropertyName fieldMeta).

Definition conflict_error (target : Class) (f fieldMeta : IFieldMeta) : Error :=
  if truthy_flag (isPrimary f) && truthy_flag (isPrimary fieldMeta)
  then PrimaryKeyAlreadyDefinedError target (RawField f) (RawField fieldMeta)
  else PropertyAlreadyDefinedError f fieldMeta.

(** The state after [set(key, value, target)]. *)
Definition defined (key : EMetaDataKey) (value : IMetaValuesMap key)
    (target : Class) (s : State) : State :=
  snd (ReflectUtils.set key value target s).

(** The part of [visible_fields] that is read for the ancestors. *)
Definition inherited_fields (target : Class) (s : State) : list IFieldMeta :=
  match target with
  | class_ _ => []
  | class_extends _ parent => visible_fields parent s
  end.

(** [f.isPrimary] as a condition. *)
Definition primary (f : IFieldMeta) : bool := truthy_flag (isPrimary f).

(** A sequence of descriptors none of which conflicts with an earlier one. *)
Definition compatible (ds : list IFieldMeta) : Prop :=
  ForallOrdPairs (λ f d, conflicts d f = false) ds.

(** The state after the ghost step of [getUnpackedOwnFields]. *)
Definition logged (target : Class) (s : State) : State :=
  snd (log_unpack target s).

(** The resolved list a class sees in the cache (empty when it sees none). *)
Definition cached (target : Class) (s : State) : list IUnpackedFieldMeta :=
  default [] (ReflectUtils.get UnpackedFields target s).

(** The resolved fields of the chain of a class as the cache shows them. *)
Definition resolved_fields (target : Class) (s : State) : list IUnpackedFieldMeta :=
  flat_map (λ ctr, cached ctr s) (constructors target).

(** Every class of [cs] sees a resolved-field cache. *)
Definition all_cached (cs : list Class) (s : State) : Prop :=
  Forall (λ c, is_Some (Reflect.getMetadata UnpackedFields (metadata s) c)) cs.

(** [m] relates every state to the state it leaves, whether it returns or
    throws. *)
Definition mrel {A} (R : relation State) (m : M A) : Prop :=
  ∀ s, R s (snd (m s)).

(** What filling resolved-field caches of the classes [cs] may change:
    nothing on the prototypes, no entry of another kind, no cache that is
    already there or already seen, no cache of a class outside [cs]. *)
Record cache_fill (cs : list Class) (s s' : State) : Prop := {
  fill_prototypes : prototypes s' = prototypes s;
  fill_other_keys : ∀ k c, k ≠ UnpackedFields →
    Reflect.getOwnMetadata k (metadata s') c = Reflect.getOwnMetadata k (metadata s) c;
  fill_seen : ∀ c l,
    Reflect.getMetadata UnpackedFields (metadata s) c = Some l →
    Reflect.getMetadata UnpackedFields (metadata s') c = Some l;
  fill_own : ∀ c l,
    Reflect.getOwnMetadata UnpackedFields (metadata s) c = Some l →
    Reflect.getOwnMetadata UnpackedFields (metadata s') c = Some l;
  fill_outside : ∀ c, c ∉ cs →
    Reflect.getOwnMetadata UnpackedFields (metadata s') c
    = Reflect.getOwnMetadata UnpackedFields (metadata s) c;
}.

(** The state [getUnpackedFields] leaves. *)
Definition resolve (target : Class) (s : State) : State :=
  snd (ReflectUtils.getUnpackedFields target s).

(** The outcome of the validation of [collectModelInformation] for a
    collection name and a resolved field list, by the primary fields of the
    list. *)
Definition model_information (target : Class) (collection : string)
    (fields : list IUnpackedFieldMeta) : Completion IModelInformation :=
  match fields with
  | [] => Throw (EmptyFieldsListError target)
  | _ :: _ =>
      match List.filter u_isPrimary fields with
      | [] => Throw (PrimaryKeyNotDefinedError target)
      | [p] => Normal {| collection := collection; primaryField := p; fields := fields |}
      | p1 :: p2 :: _ =>
          Throw (PrimaryKeyAlreadyDefinedError target (UnpackedField p1) (UnpackedField p2))
      end
  end.

(** The calls a client of the registry can make ([get], [has] and [set] are
    private; the reads [getOwnFields], [isModel] and [isDataMapper] change
    nothing and are left out). *)
Inductive Call : Set :=
| call_addOwnField (target : Class) (fieldMeta : IFieldMeta)
| call_applyFields (target : Class)
| call_collectModelInformation (target : Class)
| call_defineModel (target : Class) (collection : string)
| call_defineDataMapper (target : Class)
| call_getFields (target : Class)
| call_getUnpackedOwnFields (target : Class)
| call_getUnpackedFields (target : Class).

(** The state a call leaves, whether it returns or throws. *)
Definition perform (c : Call) (s : State) : State :=
  match c with
  | call_addOwnField target fieldMeta => snd (ReflectUtils.addOwnField target fieldMeta s)
  | call_applyFields target => snd (ReflectUtils.applyFields target s)
  | call_collectModelInformation target => snd (ReflectUtils.collectModelInformation target s)
  | call_defineModel target collection => snd (ReflectUtils.defineModel target collection s)
  | call_defineDataMapper target => snd (ReflectUtils.defineDataMapper target s)
  | call_getFields target => snd (ReflectUtils.getFields target s)
  | call_getUnpackedOwnFields target => snd (ReflectUtils.getUnpackedOwnFields target s)
  | call_getUnpackedFields target => snd (ReflectUtils.getUnpackedFields target s)
  end.

Definition run (calls : list Call) (s : State) : State :=
  fold_left (λ s c, perform c s) calls s.

(** The ghost log is sound: no class twice, and every logged class has a
    cache of its own. *)
Definition unpack_log_ok (s : State) : Prop :=
  NoDup (unpackLog s)
  ∧ ∀ c, c ∈ unpackLog s →
      is_Some (Reflect.getOwnMetadata UnpackedFields (metadata s) c).

(** What every call keeps: a resolved-field cache that a class sees, an
    applied flag that a class sees set, and the soundness of the log. *)
Record api_step (s s' : State) : Prop := {
  step_seen : ∀ c l,
    Reflect.getMetadata UnpackedFields (metadata s) c = Some l →
    Reflect.getMetadata UnpackedFields (metadata s') c = Some l;
  step_applied : ∀ c,
    Reflect.getMetadata AreFieldsApplied (metadata s) c = Some true →
    Reflect.getMetadata AreFieldsApplied (metadata s') c = Some true;
  step_log : unpack_log_ok s → unpack_log_ok s';
}.

(** What [addOwnField(target, _)] may change: the field list stored on
    [target] and nothing else. *)
Record fields_write (target : Class) (s s' : State) : Prop := {
  fw_prototypes : prototypes s' = prototypes s;
  fw_log : unpackLog s' = unpackLog s;
  fw_other : ∀ k c, k ≠ Fields ∨ c ≠ target →
    Reflect.getOwnMetadata k (metadata s') c = Reflect.getOwnMetadata k (metadata s) c;
}.

(** No class has an applied flag stored as [false]. *)
Definition applied_only_true (s : State) : Prop :=
  ∀ c v, Reflect.getOwnMetadata AreFieldsApplied (metadata s) c = Some v → v = true.

Definition keeps_applied_true : relation State :=
  λ s s', applied_only_true s → applied_only_true s'.

(** Two states with the same raw field lists, resolved-field caches and
    collection names. *)
Definition same_model_data (s s' : State) : Prop :=
  ∀ k c, k = Fields ∨ k = UnpackedFields ∨ k = Collection →
    Reflect.getOwnMetadata k (metadata s') c = Reflect.getOwnMetadata k (metadata s) c.

(** The descriptor that [Field(typeOrOptions)] hands to [addOwnField] for a
    property. *)
Definition Field_descriptor (getReflectedSupportedType : Class → string → TAnyFieldType)
    (typeOrOptions : option TAnyFieldOptions) (Model : Class) (propertyKey : string)
    : IFieldMeta :=
  {| classPropertyName := propertyKey;
     dbPropertyName := default propertyKey (typeOrOptions ≫= o_name);
     defaultValue := typeOrOptions ≫= o_defaultValue;
     isNullable := default true (typeOrOptions ≫= o_nullable);
     isIdentifier := default false (typeOrOptions ≫= o_id);
     isPrimary := None;
     type := default (getReflectedSupportedType Model propertyKey)
               (typeOrOptions ≫= o_type) |}.

(** The prototypes are the same in both states. *)
Definition same_prototypes : relation State :=
  λ s s', prototypes s' = prototypes s.


(** ** Sample declarations *)

Definition User : Class := class_ "User".
Definition Admin : Class := class_extends "Admin" User.

Definition class_A : Class := class_ "A".
Definition class_B : Class := class_extends "B" class_A.
Definition class_C : Class := class_extends "C" class_B.

(** A stand-in for the type inference of the declaration site. *)
Definition reflected_Object : Class → string → TAnyFieldType :=
  λ _ _, "Object"%string.

(** [{type: 'string', id}] *)
Definition string_options (id : bool) : TAnyFieldOptions :=
  {| o_type := Some "string"%string; o_nullable := None; o_name := None;
     o_defaultValue := None; o_id := Some id |}.

(** The descriptor [Field({type: 'string', id})] builds for a property. *)
Definition string_field (propertyKey : string) (id : bool) : IFieldMeta :=
  {| classPropertyName := propertyKey; dbPropertyName := propertyKey;
     defaultValue := None; isNullable := true; isIdentifier := id;
     isPrimary := None; type := "string"%string |}.

(** A descriptor handed to [addOwnField] directly, with [isPrimary] set. *)
Definition primary_field (propertyKey dbName : string) : IFieldMeta :=
  {| classPropertyName := propertyKey; dbPropertyName := dbName;
     defaultValue := None; isNullable := false; isIdentifier := true;
     isPrimary := Some true; type := "string"%string |}.

(** * Properties *)


Lemma constructors_depth c a : a ∈ constructors c → depth a ≤ depth c.
Proof.
  induction c as [n|n b IH]; cbn [constructors depth]; intros Ha.
  - apply list_elem_of_singleton in Ha as ->. done.
  - apply elem_of_cons in Ha as [->|Ha]; [done|]. specialize (IH Ha). lia.
Qed.

Lemma constructors_self c : c ∈ constructors c.
Proof. destruct c; left. Qed.

Lemma not_own_ancestor n b : class_extends n b ∉ constructors b.
Proof. intros H%constructors_depth. cbn in H. lia. Qed.

Lemma class_extends_ne n b : b ≠ class_extends n b.
Proof.
  intros H. apply (not_own_ancestor n b). rewrite <- H. apply constructors_self.
Qed.

Lemma constructors_trans a b c :
  a ∈ constructors b → b ∈ constructors c → a ∈ constructors c.
Proof.
  intros Hab. induction c as [n|n p IH]; cbn [constructors]; intros Hbc.
  - apply list_elem_of_singleton in Hbc as ->. done.
  - apply elem_of_cons in Hbc as [->|Hbc]; [done|].
    apply elem_of_cons. right. by apply IH.
Qed.

Section store.

Implicit Types (st : gmap Class MetadataMap) (c target : Class) (k : EMetaDataKey).

Lemma md_get_set k (v : IMetaValuesMap k) m : md_get k (md_set k v m) = Some v.
Proof. by destruct k. Qed.

Lemma md_get_set_ne k k' (v : IMetaValuesMap k) m :
  k ≠ k' → md_get k' (md_set k v m) = md_get k' m.
Proof. by destruct k, k'. Qed.

Lemma getOwnMetadata_define_eq k (v : IMetaValuesMap k) c st :
  Reflect.getOwnMetadata k (Reflect.defineMetadata k v c st) c = Some v.
Proof.
  unfold Reflect.getOwnMetadata, Reflect.defineMetadata.
  rewrite lookup_insert_eq. cbn. apply md_get_set.
Qed.

Lemma getOwnMetadata_define_ne_class k k' (v : IMetaValuesMap k) c c' st :
  c ≠ c' →
  Reflect.getOwnMetadata k' (Reflect.defineMetadata k v c st) c'
  = Reflect.getOwnMetadata k' st c'.
Proof.
  intros Hne. unfold Reflect.getOwnMetadata, Reflect.defineMetadata.
  by rewrite lookup_insert_ne.
Qed.

Lemma getOwnMetadata_define_ne_key k k' (v : IMetaValuesMap k) c c' st :
  k ≠ k' →
  Reflect.getOwnMetadata k' (Reflect.defineMetadata k v c st) c'
  = Reflect.getOwnMetadata k' st c'.
Proof.
  intros Hne. destruct (decide (c = c')) as [<-|Hc].
  - unfold Reflect.getOwnMetadata, Reflect.defineMetadata.
    rewrite lookup_insert_eq. cbn. rewrite md_get_set_ne by done.
    destruct (st !! c); [done|]. by destruct k'.
  - by apply getOwnMetadata_define_ne_class.
Qed.

Lemma getMetadata_unfold k st c :
  Reflect.getMetadata k st c =
  match Reflect.getOwnMetadata k st c with
  | Some v => Some v
  | None => getPrototypeOf c ≫= Reflect.getMetadata k st
  end.
Proof. by destruct c. Qed.

Lemma getMetadata_own k st c v :
  Reflect.getOwnMetadata k st c = Some v → Reflect.getMetadata k st c = Some v.
Proof. intros H. rewrite getMetadata_unfold. by rewrite H. Qed.

(** The lookup reports the entry of the nearest class of the chain that has
    one. *)
Lemma getMetadata_Some k st c v :
  Reflect.getMetadata k st c = Some v →
  ∃ a, a ∈ constructors c ∧ Reflect.getOwnMetadata k st a = Some v.
Proof.
  induction c as [n|n b IH]; cbn [Reflect.getMetadata constructors].
  - destruct (Reflect.getOwnMetadata k st (class_ n)) eqn:E; [|done].
    intros [= ->]. exists (class_ n). split; [apply list_elem_of_singleton|]; done.
  - destruct (Reflect.getOwnMetadata k st (class_extends n b)) eqn:E.
    + intros [= ->]. exists (class_extends n b). split; [left|done].
    + intros (a & Ha & Hv)%IH. exists a. split; [by right|done].
Qed.

Lemma getMetadata_None k st c a :
  Reflect.getMetadata k st c = None → a ∈ constructors c →
  Reflect.getOwnMetadata k st a = None.
Proof.
  induction c as [n|n b IH]; cbn [Reflect.getMetadata constructors].
  - destruct (Reflect.getOwnMetadata k st (class_ n)) eqn:E; [done|].
    intros _ ->%list_elem_of_singleton. done.
  - destruct (Reflect.getOwnMetadata k st (class_extends n b)) eqn:E; [done|].
    intros Hb [->|Ha]%elem_of_cons; [done|]. by apply IH.
Qed.

Lemma getMetadata_None_ancestor k st c a :
  Reflect.getMetadata k st c = None → a ∈ constructors c →
  Reflect.getMetadata k st a = None.
Proof.
  intros Hc Ha. destruct (Reflect.getMetadata k st a) eqn:E; [|done].
  apply getMetadata_Some in E as (a' & Ha' & Hv).
  rewrite (getMetadata_None k st c a') in Hv; [done|done|].
  by eapply constructors_trans.
Qed.

Lemma getMetadata_define_eq k (v : IMetaValuesMap k) c st :
  Reflect.getMetadata k (Reflect.defineMetadata k v c st) c = Some v.
Proof. apply getMetadata_own, getOwnMetadata_define_eq. Qed.

Lemma getMetadata_define_ne_key k k' (v : IMetaValuesMap k) c c' st :
  k ≠ k' →
  Reflect.getMetadata k' (Reflect.defineMetadata k v c st) c'
  = Reflect.getMetadata k' st c'.
Proof.
  intros Hne. induction c' as [n|n b IH]; cbn [Reflect.getMetadata];
    rewrite getOwnMetadata_define_ne_key by done; [done|].
  by rewrite IH.
Qed.

(** A write on a class outside the chain of [c'] is not seen from [c']. *)
Lemma getMetadata_define_outside k k' (v : IMetaValuesMap k) c c' st :
  c ∉ constructors c' →
  Reflect.getMetadata k' (Reflect.defineMetadata k v c st) c'
  = Reflect.getMetadata k' st c'.
Proof.
  induction c' as [n|n b IH]; cbn [Reflect.getMetadata constructors]; intros Hc.
  - rewrite getOwnMetadata_define_ne_class; [done|].
    intros ->. apply Hc, list_elem_of_singleton. done.
  - apply not_elem_of_cons in Hc as [Hc1 Hc2].
    rewrite getOwnMetadata_define_ne_class by done. by rewrite IH.
Qed.

(** A write on a class that sees no entry leaves every visible entry as it
    is. *)
Lemma getMetadata_define_fresh k (v w : IMetaValuesMap k) c c' st :
  Reflect.getMetadata k st c = None →
  Reflect.getMetadata k st c' = Some w →
  Reflect.getMetadata k (Reflect.defineMetadata k v c st) c' = Some w.
Proof.
  intros Hc. induction c' as [n|n b IH]; cbn [Reflect.getMetadata].
  - destruct (Reflect.getOwnMetadata k st (class_ n)) eqn:E; [|done].
    intros [= ->]. rewrite getOwnMetadata_define_ne_class, E; [done|].
    intros ->. apply getMetadata_own in E. congruence.
  - destruct (Reflect.getOwnMetadata k st (class_extends n b)) eqn:E.
    + intros [= ->]. rewrite getOwnMetadata_define_ne_class, E; [done|].
      intros ->. apply getMetadata_own in E. congruence.
    + intros Hb. rewrite getOwnMetadata_define_ne_class, E; [by apply IH|].
      intros ->. cbn in Hc. rewrite E in Hc. congruence.
Qed.

Lemma hasMetadata_getMetadata k st c :
  Reflect.hasMetadata k st c = bool_decide (is_Some (Reflect.getMetadata k st c)).
Proof.
  induction c as [n|n b IH]; cbn [Reflect.hasMetadata Reflect.getMetadata];
    unfold Reflect.hasOwnMetadata;
    destruct (Reflect.getOwnMetadata k st _) eqn:E;
    repeat case_bool_decide; try done;
    match goal with
    | H : ¬ is_Some (Some _) |- _ => by destruct H
    | H : is_Some None |- _ => by destruct H
    end.
Qed.

End store.

Section monad.

Context {A B : Type}.

Lemma bind_normal (m : M A) (k : A → M B) s a s' :
  m s = (Normal a, s') → bind m k s = k a s'.
Proof. unfold bind. by intros ->. Qed.

Lemma bind_throw (m : M A) (k : A → M B) s e s' :
  m s = (Throw e, s') → bind m k s = (Throw e, s').
Proof. unfold bind. by intros ->. Qed.

Lemma bind_normal_inv (m : M A) (k : A → M B) s b s2 :
  bind m k s = (Normal b, s2) →
  ∃ a s1, m s = (Normal a, s1) ∧ k a s1 = (Normal b, s2).
Proof.
  unfold bind. destruct (m s) as [[a|e] s1]; [|done]. intros H. by exists a, s1.
Qed.

End monad.

(** The walker visits the constructor chain in order. *)
Lemma whileHasParentConstructor_for_of {A} target (visitor : Class → A → M A) acc s :
  whileHasParentConstructor target visitor acc s
  = for_of (constructors target) visitor acc s.
Proof.
  revert acc s. induction target as [n|n b IH]; intros acc s;
    cbn [whileHasParentConstructor constructors for_of]; [done|].
  unfold bind. destruct (visitor _ acc s) as [[a|e] s1]; [apply IH|done].
Qed.

Lemma for_of_app {A B} (l1 l2 : list A) (body : A → B → M B) acc s :
  for_of (l1 ++ l2) body acc s
  = bind (for_of l1 body acc) (for_of l2 body) s.
Proof.
  revert acc s. induction l1 as [|x l1 IH]; intros acc s; cbn [app for_of]; [done|].
  unfold bind. destruct (body x acc s) as [[a|e] s1]; [|done].
  rewrite IH. done.
Qed.

Lemma getFields_eq target s :
  ReflectUtils.getFields target s = (Normal (visible_fields target s), s).
Proof.
  unfold ReflectUtils.getFields, visible_fields.
  rewrite whileHasParentConstructor_for_of.
  change (flat_map _ (constructors target))
    with ([] ++ flat_map (λ ctr, ReflectUtils.getOwnFields ctr s) (constructors target)).
  generalize (@nil IFieldMeta) as acc.
  induction (constructors target) as [|c l IH]; intros acc; cbn [for_of flat_map].
  - by rewrite app_nil_r.
  - unfold bind, gets, ret. cbn. rewrite IH. by rewrite app_assoc.
Qed.

Lemma set_eq key value target s :
  ReflectUtils.set key value target s = (Normal (), defined key value target s).
Proof. done. Qed.

Lemma metadata_defined key value target s :
  metadata (defined key value target s)
  = Reflect.defineMetadata key value target (metadata s).
Proof. done. Qed.

(** The loop of [addOwnField] stops at the first conflicting field. *)
Lemma addOwnField_loop target fieldMeta (l : list IFieldMeta) s :
  forEach l (λ f,
    if truthy_flag (isPrimary f) && truthy_flag (isPrimary fieldMeta)
    then throw (PrimaryKeyAlreadyDefinedError target (RawField f) (RawField fieldMeta))
    else if bool_decide (classPropertyName f = classPropertyName fieldMeta)
    then throw (PropertyAlreadyDefinedError f fieldMeta)
    else ret ()) s =
  match List.find (conflicts fieldMeta) l with
  | Some f => (Throw (conflict_error target f fieldMeta), s)
  | None => (Normal (), s)
  end.
Proof.
  induction l as [|f l IH]; cbn [forEach List.find]; [done|].
  unfold conflicts at 1, conflict_error, bind.
  destruct (truthy_flag (isPrimary f) && truthy_flag (isPrimary fieldMeta)) eqn:E;
    cbn [orb].
  - by rewrite E.
  - case_bool_decide; [by rewrite E|]. apply IH.
Qed.

(** [addOwnField] scans the visible fields in order and stops at the first
    conflicting one. *)
Lemma addOwnField_eq target fieldMeta s :
  ReflectUtils.addOwnField target fieldMeta s =
  match List.find (conflicts fieldMeta) (visible_fields target s) with
  | Some f => (Throw (conflict_error target f fieldMeta), s)
  | None =>
      (Normal (),
       defined Fields (ReflectUtils.getOwnFields target s ++ [fieldMeta]) target s)
  end.
Proof.
  unfold ReflectUtils.addOwnField.
  rewrite (bind_normal _ _ _ _ _ (getFields_eq target s)).
  unfold bind at 1. rewrite addOwnField_loop.
  by destruct (List.find _ _).
Qed.

(** ** Reading through [get] *)

Lemma get_Fields target s :
  ReflectUtils.get Fields target s = Reflect.getMetadata Fields (metadata s) target.
Proof. unfold ReflectUtils.get. by destruct (Reflect.getMetadata _ _ _). Qed.

Lemma get_UnpackedFields target s :
  ReflectUtils.get UnpackedFields target s
  = Reflect.getMetadata UnpackedFields (metadata s) target.
Proof. unfold ReflectUtils.get. by destruct (Reflect.getMetadata _ _ _). Qed.

Lemma getMetadata_empty k c : Reflect.getMetadata k ∅ c = None.
Proof.
  induction c as [n|n b IH]; cbn [Reflect.getMetadata];
    unfold Reflect.getOwnMetadata; by rewrite lookup_empty.
Qed.

Lemma getOwnFields_None target s :
  Reflect.getMetadata Fields (metadata s) target = None →
  ReflectUtils.getOwnFields target s = [].
Proof. intros H. unfold ReflectUtils.getOwnFields. by rewrite get_Fields, H. Qed.

(** A class that sees no field list sees no field at all. *)
Lemma visible_fields_None target s :
  Reflect.getMetadata Fields (metadata s) target = None →
  visible_fields target s = [].
Proof.
  intros H. unfold visible_fields.
  assert (Forall (λ c, ReflectUtils.getOwnFields c s = []) (constructors target)) as Hall.
  { apply Forall_forall. intros c Hc.
    apply getOwnFields_None. by eapply getMetadata_None_ancestor. }
  induction Hall as [|c l Hc _ IH]; cbn [flat_map]; [done|]. by rewrite Hc, IH.
Qed.

Lemma addOwnField_initial target fieldMeta :
  ReflectUtils.addOwnField target fieldMeta initial_state
  = (Normal (), defined Fields [fieldMeta] target initial_state).
Proof.
  rewrite addOwnField_eq.
  rewrite visible_fields_None, getOwnFields_None by apply getMetadata_empty.
  done.
Qed.

(** ** The metadata store: what a subclass sees *)

(** C1 (the code departs from the claim): [ReflectUtils.get] and
    [ReflectUtils.has] go through [Reflect.getMetadata] and
    [Reflect.hasMetadata], which continue the lookup on the superclass.
    After [addOwnField(B, f)] alone, every class [C] that extends [B] has no
    entry of its own, and still [get], [has] and [getOwnFields] on [C] report
    the list registered on [B]. *)
Theorem C1_subclass_sees_ancestor_metadata (n : string) (B : Class) (f : IFieldMeta) :
  let C := class_extends n B in
  let s := snd (ReflectUtils.addOwnField B f initial_state) in
  Reflect.getOwnMetadata Fields (metadata s) C = None
  ∧ ReflectUtils.get Fields C s = Some [f]
  ∧ ReflectUtils.has Fields C s = true
  ∧ ReflectUtils.getOwnFields C s = [f].
Proof.
  intros C s. subst s. rewrite addOwnField_initial. cbn [snd].
  assert (Reflect.getOwnMetadata Fields
            (metadata (defined Fields [f] B initial_state)) C = None) as Hown.
  { rewrite metadata_defined, getOwnMetadata_define_ne_class.
    - unfold Reflect.getOwnMetadata. cbn. by rewrite lookup_empty.
    - apply class_extends_ne. }
  assert (Reflect.getMetadata Fields
            (metadata (defined Fields [f] B initial_state)) C = Some [f]) as Hget.
  { subst C. cbn [Reflect.getMetadata]. rewrite Hown.
    rewrite metadata_defined. apply getMetadata_define_eq. }
  split; [done|]. split; [by rewrite get_Fields|]. split.
  - unfold ReflectUtils.has. rewrite hasMetadata_getMetadata, Hget.
    by apply bool_decide_eq_true_2.
  - unfold ReflectUtils.getOwnFields. by rewrite get_Fields, Hget.
Qed.

(** ** Effects as relations between states *)

Section mrel.

Context (R : relation State) `{!PreOrder R}.

Lemma mrel_ret {A} (a : A) : mrel R (ret a).
Proof. intros s. done. Qed.

Lemma mrel_throw {A} e : mrel R (@throw A e).
Proof. intros s. done. Qed.

Lemma mrel_gets {A} (f : State → A) : mrel R (gets f).
Proof. intros s. done. Qed.

Lemma mrel_bind {A B} (m : M A) (k : A → M B) :
  mrel R m → (∀ a, mrel R (k a)) → mrel R (bind m k).
Proof.
  intros Hm Hk s. unfold bind. specialize (Hm s).
  destruct (m s) as [[a|e] s1]; cbn [snd] in *; [|done].
  etrans; [done|]. apply Hk.
Qed.

Lemma mrel_forEach {A} (l : list A) (body : A → M ()) :
  (∀ x, mrel R (body x)) → mrel R (forEach l body).
Proof.
  intros Hb. induction l as [|x l IH]; cbn [forEach].
  - apply mrel_ret.
  - apply mrel_bind; [apply Hb|]. by intros _.
Qed.

Lemma mrel_for_of {A B} (l : list A) (body : A → B → M B) acc :
  (∀ x b, mrel R (body x b)) → mrel R (for_of l body acc).
Proof.
  intros Hb. revert acc. induction l as [|x l IH]; intros acc; cbn [for_of].
  - apply mrel_ret.
  - apply mrel_bind; [apply Hb|]. intros b. apply IH.
Qed.

Lemma mrel_whileHasParentConstructor {A} target (visitor : Class → A → M A) acc :
  (∀ c b, c ∈ constructors target → mrel R (visitor c b)) →
  mrel R (whileHasParentConstructor target visitor acc).
Proof.
  revert acc. induction target as [n|n p IH]; intros acc Hv;
    cbn [whileHasParentConstructor].
  - apply mrel_bind; [apply Hv, constructors_self|]. intros b. apply mrel_ret.
  - apply mrel_bind; [apply Hv, constructors_self|]. intros b.
    apply IH. intros c b' Hc. apply Hv. cbn [constructors]. by right.
Qed.

End mrel.

#[global] Instance cache_fill_preorder cs : PreOrder (cache_fill cs).
Proof.
  split.
  - intros s. by split.
  - intros s1 s2 s3 [H1 H2 H3 H4 H5] [G1 G2 G3 G4 G5]. split.
    + congruence.
    + intros k c Hk. by rewrite G2, H2.
    + eauto.
    + eauto.
    + intros c Hc. by rewrite G5, H5.
Qed.

Lemma cache_fill_mono cs cs' s s' :
  cs ⊆ cs' → cache_fill cs s s' → cache_fill cs' s s'.
Proof.
  intros Hsub [H1 H2 H3 H4 H5]. split; try done.
  intros c Hc. apply H5. intros Hc'. apply Hc, Hsub, Hc'.
Qed.

(** Own entries that agree for every class give lookups that agree. *)
Lemma getMetadata_ext k st st' :
  (∀ c, Reflect.getOwnMetadata k st' c = Reflect.getOwnMetadata k st c) →
  ∀ c, Reflect.getMetadata k st' c = Reflect.getMetadata k st c.
Proof.
  intros H c. induction c as [n|n b IH]; cbn [Reflect.getMetadata]; rewrite H; [done|].
  by rewrite IH.
Qed.

Lemma cache_fill_get cs s s' k c :
  cache_fill cs s s' → k ≠ UnpackedFields →
  ReflectUtils.get k c s' = ReflectUtils.get k c s.
Proof.
  intros Hf Hk. unfold ReflectUtils.get.
  rewrite (getMetadata_ext k (metadata s) (metadata s')); [done|].
  intros c'. by apply Hf.
Qed.

Lemma cache_fill_getOwnFields cs s s' c :
  cache_fill cs s s' → ReflectUtils.getOwnFields c s' = ReflectUtils.getOwnFields c s.
Proof.
  intros Hf. unfold ReflectUtils.getOwnFields. by erewrite cache_fill_get.
Qed.

(** ** The resolver *)

Lemma getUnpackedOwnFields_eq target s :
  ReflectUtils.getUnpackedOwnFields target s =
  match ReflectUtils.get UnpackedFields target s with
  | Some unpacked => (Normal unpacked, s)
  | None =>
      let unpacked := map unpackField (ReflectUtils.getOwnFields target s) in
      (Normal unpacked, defined UnpackedFields unpacked target (logged target s))
  end.
Proof.
  unfold ReflectUtils.getUnpackedOwnFields, bind, gets.
  by destruct (ReflectUtils.get UnpackedFields target s).
Qed.

Lemma getUnpackedOwnFields_fill target s :
  cache_fill [target] s (snd (ReflectUtils.getUnpackedOwnFields target s)).
Proof.
  rewrite getUnpackedOwnFields_eq.
  destruct (ReflectUtils.get UnpackedFields target s) eqn:E; cbn [snd]; [done|].
  rewrite get_UnpackedFields in E. split.
  - done.
  - intros k c Hk. rewrite metadata_defined.
    by rewrite getOwnMetadata_define_ne_key.
  - intros c l Hc. rewrite metadata_defined. by apply getMetadata_define_fresh.
  - intros c l Hc. rewrite metadata_defined.
    rewrite getOwnMetadata_define_ne_class; [done|].
    intros ->. apply getMetadata_own in Hc. cbn in Hc. congruence.
  - intros c Hc. rewrite metadata_defined.
    rewrite getOwnMetadata_define_ne_class; [done|].
    intros ->. apply Hc. by left.
Qed.

(** After a call the class sees the list that was returned. *)
Lemma getUnpackedOwnFields_cached target s :
  ∃ l s', ReflectUtils.getUnpackedOwnFields target s = (Normal l, s')
          ∧ Reflect.getMetadata UnpackedFields (metadata s') target = Some l.
Proof.
  rewrite getUnpackedOwnFields_eq.
  destruct (ReflectUtils.get UnpackedFields target s) as [l|] eqn:E.
  - exists l, s. split; [done|]. by rewrite <- get_UnpackedFields.
  - eexists _, _. split; [done|]. rewrite metadata_defined.
    apply getMetadata_define_eq.
Qed.

Lemma cached_seen target s l :
  Reflect.getMetadata UnpackedFields (metadata s) target = Some l →
  cached target s = l.
Proof. intros H. unfold cached. by rewrite get_UnpackedFields, H. Qed.

Lemma all_cached_fill cs cs' s s' :
  cache_fill cs' s s' → all_cached cs s → all_cached cs s'.
Proof.
  intros Hf Hall. eapply Forall_impl; [exact Hall|].
  intros c [l Hl]. exists l. by apply Hf.
Qed.

Lemma cached_fill cs' s s' c :
  cache_fill cs' s s' →
  is_Some (Reflect.getMetadata UnpackedFields (metadata s) c) →
  cached c s' = cached c s.
Proof.
  intros Hf [l Hl]. rewrite (cached_seen c s l) by done.
  apply cached_seen. by apply Hf.
Qed.

(** The walk of [getUnpackedFields] over a list of classes: it never throws,
    it only fills caches, and afterwards every class of the list sees a
    cache, the returned list being what these caches show. *)
Lemma resolve_walk (cs : list Class) acc s :
  ∃ s1,
    for_of cs (λ ctr fields,
      let! own := ReflectUtils.getUnpackedOwnFields ctr in ret (fields ++ own)) acc s
    = (Normal (acc ++ flat_map (λ c, cached c s1) cs), s1)
    ∧ cache_fill cs s s1
    ∧ all_cached cs s1.
Proof.
  revert acc s. induction cs as [|c cs IH]; intros acc s; cbn [for_of flat_map].
  - exists s. rewrite app_nil_r. split; [done|]. split; [done|]. constructor.
  - destruct (getUnpackedOwnFields_cached c s) as (l & s' & Hrun & Hseen).
    pose proof (getUnpackedOwnFields_fill c s) as Hfill.
    rewrite Hrun in Hfill. cbn [snd] in Hfill.
    destruct (IH (acc ++ l) s') as (s1 & Hwalk & Hfill1 & Hall).
    exists s1. split; [|split].
    + unfold bind at 1. unfold bind at 1. rewrite Hrun. unfold ret at 1.
      rewrite Hwalk. rewrite (cached_seen c s1 l) by by apply Hfill1.
      by rewrite app_assoc.
    + etrans.
      * eapply cache_fill_mono; [|exact Hfill].
        intros x ->%list_elem_of_singleton. left.
      * eapply cache_fill_mono; [|exact Hfill1]. intros x Hx. by right.
    + constructor; [|done]. exists l. by apply Hfill1.
Qed.

(** Once every class of the list sees a cache, the walk reads and writes
    nothing. *)
Lemma resolve_walk_cached (cs : list Class) acc s :
  all_cached cs s →
  for_of cs (λ ctr fields,
    let! own := ReflectUtils.getUnpackedOwnFields ctr in ret (fields ++ own)) acc s
  = (Normal (acc ++ flat_map (λ c, cached c s) cs), s).
Proof.
  intros Hall. revert acc. induction Hall as [|c cs [l Hl] _ IH]; intros acc;
    cbn [for_of flat_map].
  - by rewrite app_nil_r.
  - unfold bind at 1. unfold bind at 1. rewrite getUnpackedOwnFields_eq.
    rewrite get_UnpackedFields, Hl. unfold ret at 1. rewrite IH.
    rewrite (cached_seen c s l) by done. by rewrite app_assoc.
Qed.

Lemma getUnpackedFields_eq target s :
  ∃ s1,
    ReflectUtils.getUnpackedFields target s = (Normal (resolved_fields target s1), s1)
    ∧ cache_fill (constructors target) s s1
    ∧ all_cached (constructors target) s1.
Proof.
  unfold ReflectUtils.getUnpackedFields. rewrite whileHasParentConstructor_for_of.
  destruct (resolve_walk (constructors target) [] s) as (s1 & H1 & H2 & H3).
  exists s1. by rewrite H1.
Qed.

Lemma getUnpackedFields_cached target s :
  all_cached (constructors target) s →
  ReflectUtils.getUnpackedFields target s = (Normal (resolved_fields target s), s).
Proof.
  intros Hall. unfold ReflectUtils.getUnpackedFields.
  rewrite whileHasParentConstructor_for_of. by rewrite resolve_walk_cached.
Qed.

Lemma getUnpackedFields_fill target s :
  cache_fill (constructors target) s (snd (ReflectUtils.getUnpackedFields target s)).
Proof. destruct (getUnpackedFields_eq target s) as (s1 & -> & H & _). done. Qed.

(** ** The accessor installer *)

(** The attributes object of [applyFields] has [get] and [set] together with
    [writable], which [Object.defineProperty] rejects. *)
Lemma defineProperty_accessor_attributes target f s :
  defineProperty_prototype target (u_classPropertyName f)
    (ReflectUtils.accessor_attributes f) s = (Throw TypeError, s).
Proof. done. Qed.

(** C4 (the code departs from the claim): on a class whose applied flag is
    not set and whose resolved field list is not empty, [applyFields] does
    not succeed.  [Object.defineProperty] throws a TypeError at the first
    field, so no accessor is defined on the prototype and the applied flag
    stays as it was; only the resolved-field caches have been filled. *)
Theorem C4_applyFields_throws_TypeError target s f fs s1 :
  ReflectUtils.get AreFieldsApplied target s ≠ Some true →
  ReflectUtils.getUnpackedFields target s = (Normal (f :: fs), s1) →
  ReflectUtils.applyFields target s = (Throw TypeError, s1)
  ∧ prototypes s1 = prototypes s
  ∧ ReflectUtils.get AreFieldsApplied target s1
    = ReflectUtils.get AreFieldsApplied target s.
Proof.
  intros Hflag Hrun. split; [|split].
  - unfold ReflectUtils.applyFields. unfold bind at 1. unfold gets.
    rewrite bool_decide_eq_false_2 by done.
    unfold bind at 1. unfold bind at 1. rewrite Hrun. cbn [forEach].
    unfold bind at 1.
    by rewrite defineProperty_accessor_attributes.
  - pose proof (getUnpackedFields_fill target s) as Hf. rewrite Hrun in Hf.
    apply Hf.
  - pose proof (getUnpackedFields_fill target s) as Hf. rewrite Hrun in Hf.
    by eapply cache_fill_get.
Qed.

(** ** The field registry *)

Lemma visible_fields_split target s :
  visible_fields target s
  = ReflectUtils.getOwnFields target s ++ inherited_fields target s.
Proof. destruct target; cbn; [by rewrite app_nil_r|done]. Qed.

Lemma getOwnFields_defined target l s :
  ReflectUtils.getOwnFields target (defined Fields l target s) = l.
Proof.
  unfold ReflectUtils.getOwnFields.
  by rewrite get_Fields, metadata_defined, getMetadata_define_eq.
Qed.

Lemma getOwnFields_defined_outside k (v : IMetaValuesMap k) target c s :
  target ∉ constructors c →
  ReflectUtils.getOwnFields c (defined k v target s) = ReflectUtils.getOwnFields c s.
Proof.
  intros H. unfold ReflectUtils.getOwnFields.
  rewrite !get_Fields, metadata_defined.
  by rewrite getMetadata_define_outside.
Qed.

Lemma visible_fields_defined_outside k (v : IMetaValuesMap k) target c s :
  target ∉ constructors c →
  visible_fields c (defined k v target s) = visible_fields c s.
Proof.
  intros H. unfold visible_fields.
  assert (Forall (λ a, target ∉ constructors a) (constructors c)) as Hall.
  { apply Forall_forall. intros a Ha Ht. apply H. by eapply constructors_trans. }
  clear H. induction Hall as [|a l Ha _ IH]; cbn [flat_map]; [done|].
  rewrite getOwnFields_defined_outside by done. by rewrite IH.
Qed.

(** A write on a class is not seen from its ancestors. *)
Lemma inherited_fields_defined k (v : IMetaValuesMap k) target s :
  inherited_fields target (defined k v target s) = inherited_fields target s.
Proof.
  destruct target as [n|n p]; cbn [inherited_fields]; [done|].
  apply visible_fields_defined_outside, not_own_ancestor.
Qed.

Lemma find_conflicts_None fieldMeta (l : list IFieldMeta) :
  (∀ f, f ∈ l → conflicts fieldMeta f = false) →
  List.find (conflicts fieldMeta) l = None.
Proof.
  intros H. destruct (List.find _ l) as [f|] eqn:E; [|done].
  apply List.find_some in E as [Hin Hc]. apply list_elem_of_In in Hin.
  rewrite H in Hc; done.
Qed.

(** Different names and at most one primary descriptor: no conflict within
    the sequence. *)
Lemma compatible_intro (ds : list IFieldMeta) :
  NoDup (map classPropertyName ds) →
  length (List.filter primary ds) ≤ 1 →
  compatible ds.
Proof.
  induction ds as [|a ds IH]; cbn [map List.filter]; intros Hnd Hp.
  - constructor.
  - apply NoDup_cons in Hnd as [Ha Hnd]. constructor.
    + apply List.Forall_forall. intros d Hd. unfold conflicts.
      apply orb_false_iff. split.
      * fold (primary a) (primary d). destruct (primary a) eqn:Ea; [|done].
        destruct (primary d) eqn:Ed; [|done]. cbn [length] in Hp.
        assert (List.In d (List.filter primary ds)) as Hin
          by (apply List.filter_In; done).
        destruct (List.filter primary ds); [done|cbn in Hp; lia].
      * apply bool_decide_eq_false_2. intros Hn. apply Ha.
        rewrite Hn. apply list_elem_of_fmap. exists d.
        split; [done|]. by apply list_elem_of_In.
    + apply IH; [done|]. destruct (primary a); cbn [length] in Hp; lia.
Qed.

(** Registering a sequence of descriptors that conflict neither with one
    another nor with any field visible before. *)
Lemma addOwnField_compatible target ds s :
  compatible ds →
  (∀ d f, d ∈ ds → f ∈ visible_fields target s → conflicts d f = false) →
  ∃ s',
    forEach ds (ReflectUtils.addOwnField target) s = (Normal (), s')
    ∧ ReflectUtils.getOwnFields target s' = ReflectUtils.getOwnFields target s ++ ds
    ∧ inherited_fields target s' = inherited_fields target s.
Proof.
  intros Hc. revert s. induction Hc as [|d ds Hd Hc IH]; intros s Hvis.
  - exists s. by rewrite app_nil_r.
  - cbn [forEach]. unfold bind at 1. rewrite addOwnField_eq.
    rewrite find_conflicts_None by (intros f Hf; apply Hvis; [left|done]).
    set (s1 := defined Fields (ReflectUtils.getOwnFields target s ++ [d]) target s).
    destruct (IH s1) as (s' & Hrun & Hown & Hinh).
    { intros d' f Hd' Hf. rewrite visible_fields_split in Hf.
      unfold s1 in Hf. rewrite getOwnFields_defined, inherited_fields_defined in Hf.
      rewrite !elem_of_app in Hf. destruct Hf as [[Hf|Hf]|Hf].
      - apply Hvis; [by right|]. rewrite visible_fields_split.
        apply elem_of_app. by left.
      - apply list_elem_of_singleton in Hf as ->.
        rewrite List.Forall_forall in Hd. apply Hd. by apply list_elem_of_In.
      - apply Hvis; [by right|]. rewrite visible_fields_split.
        apply elem_of_app. by right. }
    exists s'. split; [done|]. split.
    + rewrite Hown. unfold s1. rewrite getOwnFields_defined.
      by rewrite <- app_assoc.
    + rewrite Hinh. unfold s1. apply inherited_fields_defined.
Qed.






Lemma forEach_two {A} (f : A → M ()) (a b : A) s s' :
  forEach [a; b] f s = (Normal (), s') → (f a ;;; f b) s = (Normal (), s').
Proof.
  cbn [forEach]. unfold bind, ret.
  destruct (f a s) as [[[]|e] s1]; [|done].
  by destruct (f b s1) as [[[]|e] s2].
Qed.

(** C3 (the code departs from the claim): the descriptor that [Field] builds
    marks the primary key with [isIdentifier], and the check of
    [addOwnField] reads [isPrimary], which that descriptor does not have.  So
    on every class, after a property declared with [Field({id: true})],
    [addOwnField] accepts any descriptor [d] of another name, also one that
    marks the primary key, and the class ends up with two own descriptors
    marking it. *)
Theorem C3_second_identifier_accepted
    (getReflectedSupportedType : Class → string → TAnyFieldType)
    (Model : Class) (a : string) (d : IFieldMeta) :
  classPropertyName d ≠ a →
  ∃ s,
    (Field getReflectedSupportedType (Some (string_options true)) Model a ;;;
     ReflectUtils.addOwnField Model d) initial_state = (Normal (), s)
    ∧ ReflectUtils.getOwnFields Model s = [string_field a true; d]
    ∧ isIdentifier (string_field a true) = true.
Proof.
  intros Hne.
  destruct (addOwnField_compatible Model [string_field a true; d] initial_state)
    as (s & Hrun & Hown & _).
  - apply compatible_intro; cbn.
    + apply NoDup_cons. split; [|apply NoDup_singleton].
      intros ->%list_elem_of_singleton. done.
    + destruct (primary d); cbn; lia.
  - intros d' f _ Hf.
    rewrite visible_fields_None in Hf by apply getMetadata_empty. inversion Hf.
  - exists s.
    rewrite (getOwnFields_None Model initial_state) in Hown by apply getMetadata_empty.
    split; [by apply forEach_two in Hrun|]. by split.
Qed.

Lemma C3_second_identifier_accepted_witness :
  ∃ s,
    (Field reflected_Object (Some (string_options true)) User "id" ;;;
     ReflectUtils.addOwnField User (primary_field "uuid" "uuid"))
      initial_state = (Normal (), s)
    ∧ ReflectUtils.getOwnFields User s
      = [string_field "id" true; primary_field "uuid" "uuid"]
    ∧ isIdentifier (string_field "id" true) = true.
Proof.
  apply (C3_second_identifier_accepted reflected_Object User "id"
           (primary_field "uuid" "uuid")).
  vm_compute. discriminate.
Defined.

Lemma C4_applyFields_throws_TypeError_witness :
  let s := snd (ReflectUtils.addOwnField User (string_field "name" false) initial_state) in
  let s1 := snd (ReflectUtils.getUnpackedFields User s) in
  ReflectUtils.applyFields User s = (Throw TypeError, s1)
  ∧ prototypes s1 = prototypes s
  ∧ ReflectUtils.get AreFieldsApplied User s1 = ReflectUtils.get AreFieldsApplied User s.
Proof.
  intros s s1.
  apply (C4_applyFields_throws_TypeError User s
           (unpackField (string_field "name" false)) [] s1).
  - vm_compute. discriminate.
  - vm_compute. reflexivity.
Defined.

(** C6 (the code departs from the claim): the classes [A], [B extends A] and
    [C extends B] declare one field each, in the order in which class
    declarations run.  When [B] registers its field it has no list of its
    own, reads the list of [A] through the prototype chain and stores that
    list with its field appended; [C] does the same with the list of [B].
    [getUnpackedFields(C)] then holds the fields of [A] three times and the
    field of [B] twice, and not [c], [b], [a]. *)
Theorem C6_chain_fields_repeat_inherited :
  let a := string_field "a" true in
  let b := string_field "b" false in
  let c := string_field "c" false in
  fst ((ReflectUtils.addOwnField class_A a ;;;
        ReflectUtils.addOwnField class_B b ;;;
        ReflectUtils.addOwnField class_C c ;;;
        ReflectUtils.getUnpackedFields class_C) initial_state)
  = Normal (map unpackField [a; b; c; a; b; a]).
Proof. vm_compute. reflexivity. Qed.

(** ** The model introspector *)

Lemma getUnpackedFields_resolve target s :
  ReflectUtils.getUnpackedFields target s
  = (Normal (resolved_fields target (resolve target s)), resolve target s).
Proof.
  unfold resolve. destruct (getUnpackedFields_eq target s) as (s1 & H & _).
  by rewrite H.
Qed.

Lemma resolve_fill target s : cache_fill (constructors target) s (resolve target s).
Proof. apply getUnpackedFields_fill. Qed.

Lemma resolve_all_cached target s : all_cached (constructors target) (resolve target s).
Proof.
  unfold resolve. destruct (getUnpackedFields_eq target s) as (s1 & H & _ & Hall).
  by rewrite H.
Qed.

Lemma resolve_cached target s :
  all_cached (constructors target) s → resolve target s = s.
Proof. intros H. unfold resolve. by rewrite getUnpackedFields_cached. Qed.

(** The scan for the primary field, started with [prev] as the primary field
    found so far. *)
Lemma primary_scan target (fs : list IUnpackedFieldMeta) prev s :
  for_of fs (λ f primaryField,
    if u_isPrimary f then
      match primaryField with
      | Some prev =>
          throw (PrimaryKeyAlreadyDefinedError target (UnpackedField prev) (UnpackedField f))
      | None => ret (Some f)
      end
    else ret primaryField) prev s =
  match prev, List.filter u_isPrimary fs with
  | _, [] => (Normal prev, s)
  | None, [p] => (Normal (Some p), s)
  | None, p1 :: p2 :: _ =>
      (Throw (PrimaryKeyAlreadyDefinedError target (UnpackedField p1) (UnpackedField p2)), s)
  | Some q, p :: _ =>
      (Throw (PrimaryKeyAlreadyDefinedError target (UnpackedField q) (UnpackedField p)), s)
  end.
Proof.
  revert prev. induction fs as [|f fs IH]; intros prev; cbn [for_of List.filter].
  - by destruct prev.
  - unfold bind at 1. destruct (u_isPrimary f) eqn:Ef.
    + destruct prev as [q|]; [done|].
      unfold ret at 1. rewrite IH. by destruct (List.filter u_isPrimary fs).
    + unfold ret at 1. apply IH.
Qed.

Lemma collectModelInformation_eq target s :
  ReflectUtils.collectModelInformation target s =
  match ReflectUtils.get Collection target s with
  | None => (Throw (ModelNotFoundError target), s)
  | Some col =>
      (model_information target col (resolved_fields target (resolve target s)),
       resolve target s)
  end.
Proof.
  unfold ReflectUtils.collectModelInformation. unfold bind at 1. unfold gets at 1.
  destruct (ReflectUtils.get Collection target s) as [col|]; [|done].
  unfold bind at 1. rewrite getUnpackedFields_resolve.
  destruct (resolved_fields target (resolve target s)) as [|f fs] eqn:E; [done|].
  rewrite bool_decide_eq_false_2 by done.
  unfold bind at 1. rewrite primary_scan. unfold model_information.
  by destruct (List.filter u_isPrimary (f :: fs)) as [|p1 [|p2 rest]].
Qed.




(** C9 (amended): [collectModelInformation(C)] leaves the prototypes and, for
    every class, the raw field list, the collection name, the object kind and
    the applied flag as they were; it keeps every resolved-field cache that
    exists and fills caches only for [C] and its ancestors.  Called again, it
    has the same outcome and changes nothing. *)
Theorem C9_collectModelInformation_fills_caches_only target s :
  let s' := snd (ReflectUtils.collectModelInformation target s) in
  cache_fill (constructors target) s s'
  ∧ ReflectUtils.collectModelInformation target s'
    = (fst (ReflectUtils.collectModelInformation target s), s').
Proof.
  cbv zeta. rewrite collectModelInformation_eq.
  destruct (ReflectUtils.get Collection target s) as [col|] eqn:E; cbn [fst snd].
  - split; [apply resolve_fill|].
    rewrite collectModelInformation_eq.
    rewrite (cache_fill_get _ _ _ _ _ (resolve_fill target s)) by done.
    rewrite E. by rewrite resolve_cached by apply resolve_all_cached.
  - split; [done|]. rewrite collectModelInformation_eq. by rewrite E.
Qed.

(** C9, as stated, fails: the first call writes the resolved-field cache of
    the class. *)
Lemma C9_first_call_writes_cache :
  let id := string_field "id" true in
  let s := snd ((ReflectUtils.defineModel User "users" ;;;
                 ReflectUtils.addOwnField User id) initial_state) in
  let s' := snd (ReflectUtils.collectModelInformation User s) in
  Reflect.getOwnMetadata UnpackedFields (metadata s) User = None
  ∧ Reflect.getOwnMetadata UnpackedFields (metadata s') User = Some [unpackField id]
  ∧ s' ≠ s.
Proof.
  cbv zeta. split; [|split]; [vm_compute; reflexivity..|].
  intros H. apply (f_equal unpackLog) in H. vm_compute in H. discriminate.
Qed.

(** C10: after [defineModel] with the empty string as name, [C] has a
    collection entry and [collectModelInformation(C)] fails with
    ModelNotFound: the getter turns the falsy stored values, the empty string
    and [false], into [null]. *)
Theorem C10_empty_collection_name target s :
  let s' := snd (ReflectUtils.defineModel target EmptyString s) in
  Reflect.getOwnMetadata Collection (metadata s') target = Some EmptyString
  ∧ ReflectUtils.has Collection target s' = true
  ∧ ReflectUtils.get Collection target s' = None
  ∧ ReflectUtils.collectModelInformation target s'
    = (Throw (ModelNotFoundError target), s')
  ∧ ReflectUtils.get AreFieldsApplied target
      (defined AreFieldsApplied false target s) = None.
Proof.
  cbv zeta.
  assert (snd (ReflectUtils.defineModel target EmptyString s)
          = defined ObjectType model target (defined Collection EmptyString target s))
    as -> by done.
  assert (Reflect.getOwnMetadata Collection
            (metadata (defined ObjectType model target
                         (defined Collection EmptyString target s))) target
          = Some EmptyString) as Hown.
  { rewrite metadata_defined, getOwnMetadata_define_ne_key by done.
    rewrite metadata_defined. apply getOwnMetadata_define_eq. }
  assert (ReflectUtils.get Collection target
            (defined ObjectType model target
               (defined Collection EmptyString target s)) = None) as Hget.
  { unfold ReflectUtils.get. by rewrite (getMetadata_own _ _ _ _ Hown). }
  split; [done|]. split; [|split; [done|split]].
  - unfold ReflectUtils.has. rewrite hasMetadata_getMetadata.
    rewrite (getMetadata_own _ _ _ _ Hown). by apply bool_decide_eq_true_2.
  - by rewrite collectModelInformation_eq, Hget.
  - unfold ReflectUtils.get. rewrite metadata_defined.
    by rewrite getMetadata_define_eq.
Qed.

(** ** What every call of the registry keeps *)

#[global] Instance api_step_preorder : PreOrder api_step.
Proof.
  split.
  - intros s. by split.
  - intros s1 s2 s3 [H1 H2 H3] [G1 G2 G3]. split; eauto.
Qed.

Lemma api_step_defined_other k (v : IMetaValuesMap k) target s :
  k ≠ UnpackedFields → k ≠ AreFieldsApplied →
  api_step s (defined k v target s).
Proof.
  intros Hk1 Hk2. split.
  - intros c l. rewrite metadata_defined. by rewrite getMetadata_define_ne_key.
  - intros c. rewrite metadata_defined. by rewrite getMetadata_define_ne_key.
  - intros [Hnd Hown]. split; [done|]. intros c Hc. cbn in Hc.
    rewrite metadata_defined, getOwnMetadata_define_ne_key by done. by apply Hown.
Qed.

(** Setting the applied flag of a class to [true] keeps it set wherever it
    was seen set. *)
Lemma getMetadata_applied_define target st c :
  Reflect.getMetadata AreFieldsApplied st c = Some true →
  Reflect.getMetadata AreFieldsApplied
    (Reflect.defineMetadata AreFieldsApplied true target st) c = Some true.
Proof.
  induction c as [n|n b IH]; cbn [Reflect.getMetadata].
  - destruct (decide (target = class_ n)) as [->|Hne].
    + by rewrite getOwnMetadata_define_eq.
    + by rewrite getOwnMetadata_define_ne_class.
  - destruct (decide (target = class_extends n b)) as [->|Hne].
    + by rewrite getOwnMetadata_define_eq.
    + rewrite getOwnMetadata_define_ne_class by done.
      destruct (Reflect.getOwnMetadata AreFieldsApplied st (class_extends n b));
        [done|apply IH].
Qed.

Lemma api_step_defined_applied target s :
  api_step s (defined AreFieldsApplied true target s).
Proof.
  split.
  - intros c l. rewrite metadata_defined. by rewrite getMetadata_define_ne_key.
  - intros c. rewrite metadata_defined. apply getMetadata_applied_define.
  - intros [Hnd Hown]. split; [done|]. intros c Hc. cbn in Hc.
    rewrite metadata_defined, getOwnMetadata_define_ne_key by done. by apply Hown.
Qed.

Lemma api_step_defineProperty target P attributes :
  mrel api_step (defineProperty_prototype target P attributes).
Proof.
  intros s. unfold defineProperty_prototype.
  destruct (Object_defineProperty _ P attributes); cbn [snd]; [|done].
  by split.
Qed.

Lemma api_step_getUnpackedOwnFields target :
  mrel api_step (ReflectUtils.getUnpackedOwnFields target).
Proof.
  intros s. rewrite getUnpackedOwnFields_eq.
  destruct (ReflectUtils.get UnpackedFields target s) eqn:E; cbn [snd]; [done|].
  rewrite get_UnpackedFields in E. split.
  - intros c l Hc. rewrite metadata_defined. by apply getMetadata_define_fresh.
  - intros c. rewrite metadata_defined. by rewrite getMetadata_define_ne_key.
  - intros [Hnd Hown].
    assert (Reflect.getOwnMetadata UnpackedFields (metadata s) target = None) as Hnone.
    { eapply getMetadata_None; [done|apply constructors_self]. }
    split.
    + cbn. apply NoDup_cons. split; [|done].
      intros Hin%Hown. rewrite Hnone in Hin. by destruct Hin.
    + intros c Hc. cbn in Hc. rewrite metadata_defined.
      destruct (decide (target = c)) as [->|Hne].
      * rewrite getOwnMetadata_define_eq. by eexists.
      * rewrite getOwnMetadata_define_ne_class by done.
        apply elem_of_cons in Hc as [->|Hc]; [done|]. by apply Hown.
Qed.

Lemma api_step_getUnpackedFields target :
  mrel api_step (ReflectUtils.getUnpackedFields target).
Proof.
  apply mrel_whileHasParentConstructor; [apply _|]. intros c b _.
  apply mrel_bind; [apply _|apply api_step_getUnpackedOwnFields|].
  intros a. apply mrel_ret, _.
Qed.

Lemma api_step_applyFields target : mrel api_step (ReflectUtils.applyFields target).
Proof.
  unfold ReflectUtils.applyFields.
  apply mrel_bind; [apply _|apply mrel_gets, _|]. intros applied.
  destruct (bool_decide (applied = Some true)); [apply mrel_ret, _|].
  apply mrel_bind; [apply _|apply api_step_getUnpackedFields|]. intros fields.
  apply mrel_bind; [apply _| |].
  - apply mrel_forEach; [apply _|]. intros f. apply api_step_defineProperty.
  - intros _ s. apply api_step_defined_applied.
Qed.

Lemma api_step_perform c s : api_step s (perform c s).
Proof.
  destruct c as [t f|t|t|t col|t|t|t|t]; cbn [perform].
  - rewrite addOwnField_eq. destruct (List.find _ _); cbn [snd]; [done|].
    by apply api_step_defined_other.
  - apply api_step_applyFields.
  - rewrite collectModelInformation_eq.
    destruct (ReflectUtils.get Collection t s); cbn [snd]; [|done].
    apply api_step_getUnpackedFields.
  - change (snd (ReflectUtils.defineModel t col s))
      with (defined ObjectType model t (defined Collection col t s)).
    etrans.
    + by apply (api_step_defined_other Collection col t s).
    + by apply (api_step_defined_other ObjectType model t).
  - by apply (api_step_defined_other ObjectType data_mapper t s).
  - by rewrite getFields_eq.
  - apply api_step_getUnpackedOwnFields.
  - apply api_step_getUnpackedFields.
Qed.

Lemma api_step_run calls s : api_step s (run calls s).
Proof.
  revert s. induction calls as [|c calls IH]; intros s; cbn [run fold_left]; [done|].
  etrans; [apply api_step_perform|apply IH].
Qed.

Lemma api_step_all_cached cs s s' :
  api_step s s' → all_cached cs s →
  all_cached cs s' ∧ flat_map (λ c, cached c s') cs = flat_map (λ c, cached c s) cs.
Proof.
  intros Hstep Hall. induction Hall as [|c cs [l Hl] _ [IH1 IH2]]; cbn [flat_map].
  - split; [constructor|done].
  - pose proof (step_seen _ _ Hstep c l Hl) as Hl'. split.
    + constructor; [by exists l|done].
    + by rewrite (cached_seen c s l), (cached_seen c s' l), IH2.
Qed.

(** C7: a call of [getUnpackedOwnFields] or of [getUnpackedFields] returns a
    list, and the same call made again, directly or after any other calls of
    the registry, returns that list and leaves the state (the log of mapping
    runs included) as it finds it: it is served from the cache.  In every
    run of calls from the initial state the mapping [.map(unpackField)] is
    run at most once for each class. *)
Theorem C7_resolution_cached_once (target : Class) (s : State) (calls : list Call) :
  (∃ l s1,
     ReflectUtils.getUnpackedOwnFields target s = (Normal l, s1)
     ∧ let s2 := run calls s1 in
       ReflectUtils.getUnpackedOwnFields target s2 = (Normal l, s2))
  ∧ (∃ l s1,
       ReflectUtils.getUnpackedFields target s = (Normal l, s1)
       ∧ let s2 := run calls s1 in
         ReflectUtils.getUnpackedFields target s2 = (Normal l, s2))
  ∧ NoDup (unpackLog (run calls initial_state)).
Proof.
  split; [|split].
  - destruct (getUnpackedOwnFields_cached target s) as (l & s1 & Hrun & Hseen).
    exists l, s1. split; [done|]. cbv zeta.
    rewrite getUnpackedOwnFields_eq, get_UnpackedFields.
    by rewrite (step_seen _ _ (api_step_run calls s1) target l Hseen).
  - exists (resolved_fields target (resolve target s)), (resolve target s).
    split; [apply getUnpackedFields_resolve|]. cbv zeta.
    destruct (api_step_all_cached (constructors target) (resolve target s)
                (run calls (resolve target s)))
      as [Hall Heq]; [apply api_step_run|apply resolve_all_cached|].
    rewrite getUnpackedFields_cached by done.
    unfold resolved_fields. by rewrite Heq.
  - apply (step_log _ _ (api_step_run calls initial_state)).
    split; [constructor|]. intros c Hc. inversion Hc.
Qed.

(** ** The guard of the accessor installer *)

Lemma applyFields_applied target s :
  Reflect.getMetadata AreFieldsApplied (metadata s) target = Some true →
  ReflectUtils.applyFields target s = (Normal (), s).
Proof.
  intros H. unfold ReflectUtils.applyFields. unfold bind at 1. unfold gets.
  unfold ReflectUtils.get. rewrite H. cbn [truthy].
  by rewrite bool_decide_eq_true_2.
Qed.

Lemma applyFields_normal target s s1 :
  ReflectUtils.applyFields target s = (Normal (), s1) →
  Reflect.getMetadata AreFieldsApplied (metadata s1) target = Some true.
Proof.
  unfold ReflectUtils.applyFields. unfold bind at 1. unfold gets.
  case_bool_decide as Hflag.
  - intros [= <-]. unfold ReflectUtils.get in Hflag.
    destruct (Reflect.getMetadata AreFieldsApplied (metadata s) target) as [[]|];
      by cbn in Hflag.
  - intros (fs & s2 & _ & H)%bind_normal_inv.
    apply bind_normal_inv in H as ([] & s3 & _ & H).
    rewrite set_eq in H. injection H as <-.
    rewrite metadata_defined. apply getMetadata_define_eq.
Qed.

(** Once a call of [applyFields(C)] has returned, every later call of
    [applyFields(C)], directly or after any other calls of the registry,
    returns at once and leaves the whole state as it finds it. *)
Lemma applyFields_returned_guard (target : Class) (s s1 : State) (calls : list Call) :
  ReflectUtils.applyFields target s = (Normal (), s1) →
  let s2 := run calls s1 in
  ReflectUtils.applyFields target s2 = (Normal (), s2).
Proof.
  intros H%applyFields_normal. cbv zeta. apply applyFields_applied.
  by apply (step_applied _ _ (api_step_run calls s1)).
Qed.

(** A call of [applyFields] on a class whose flag is not seen set and whose
    resolved list is not empty throws at the first field. *)
Lemma applyFields_throws target s f fs s1 :
  ReflectUtils.get AreFieldsApplied target s ≠ Some true →
  ReflectUtils.getUnpackedFields target s = (Normal (f :: fs), s1) →
  ReflectUtils.applyFields target s = (Throw TypeError, s1).
Proof.
  intros Hflag Hrun.
  unfold ReflectUtils.applyFields. unfold bind at 1. unfold gets.
  rewrite bool_decide_eq_false_2 by done.
  unfold bind at 1. unfold bind at 1. rewrite Hrun. cbn [forEach].
  unfold bind at 1. by rewrite defineProperty_accessor_attributes.
Qed.

(** C8 (the code departs from the claim): on a class with a resolved field
    no call of [applyFields] ever completes, so the guard never comes into
    play.  The first call throws a TypeError at the first field without
    setting the applied flag; the next call finds the flag unset, goes
    through the fields again and throws again, and so does every call after
    it, the state staying as the first call left it.  Accessors are
    installed not once but never. *)
Theorem C8_applyFields_never_completes target s f fs s1 :
  ReflectUtils.get AreFieldsApplied target s ≠ Some true →
  ReflectUtils.getUnpackedFields target s = (Normal (f :: fs), s1) →
  ReflectUtils.applyFields target s = (Throw TypeError, s1)
  ∧ ReflectUtils.applyFields target s1 = (Throw TypeError, s1)
  ∧ (∀ n, run (replicate n (call_applyFields target)) s1 = s1)
  ∧ ReflectUtils.get AreFieldsApplied target s1 ≠ Some true
  ∧ prototypes s1 = prototypes s.
Proof.
  intros Hflag Hrun.
  pose proof (getUnpackedFields_fill target s) as Hfill.
  rewrite Hrun in Hfill. cbn [snd] in Hfill.
  assert (ReflectUtils.get AreFieldsApplied target s1 ≠ Some true) as Hflag1.
  { by rewrite (cache_fill_get _ _ _ _ _ Hfill). }
  assert (ReflectUtils.getUnpackedFields target s1 = (Normal (f :: fs), s1)) as Hrun1.
  { pose proof (getUnpackedFields_resolve target s) as Hres.
    rewrite Hrun in Hres. injection Hres as Hl Hs.
    rewrite getUnpackedFields_cached.
    - by rewrite Hs, <- Hl.
    - rewrite Hs. apply resolve_all_cached. }
  pose proof (applyFields_throws target s1 f fs s1 Hflag1 Hrun1) as Hthrow1.
  split; [by apply (applyFields_throws target s f fs s1)|]. split; [done|]. split; [|split; [done|]].
  - intros n. induction n as [|n IH]; cbn [replicate run fold_left perform]; [done|].
    rewrite Hthrow1. cbn [snd]. apply IH.
  - apply Hfill.
Qed.

Lemma C8_applyFields_never_completes_witness :
  let s := snd (ReflectUtils.addOwnField User (string_field "name" false) initial_state) in
  let s1 := snd (ReflectUtils.getUnpackedFields User s) in
  ReflectUtils.applyFields User s = (Throw TypeError, s1)
  ∧ ReflectUtils.applyFields User s1 = (Throw TypeError, s1)
  ∧ (∀ n, run (replicate n (call_applyFields User)) s1 = s1)
  ∧ ReflectUtils.get AreFieldsApplied User s1 ≠ Some true
  ∧ prototypes s1 = prototypes s.
Proof.
  intros s s1.
  apply (C8_applyFields_never_completes User s
           (unpackField (string_field "name" false)) [] s1).
  - vm_compute. discriminate.
  - vm_compute. reflexivity.
Defined.

(** * Further properties of the registry *)

(** ** The metadata store: writes and reads *)

Lemma has_getMetadata k target s :
  ReflectUtils.has k target s
  = bool_decide (is_Some (Reflect.getMetadata k (metadata s) target)).
Proof. apply hasMetadata_getMetadata. Qed.

(** X1: what [set(k, v, C)] stores is what [get(k, C)] reads next, unless the
    value is falsy, in which case [get] reads [null]; [has(k, C)] is true in
    both cases, whatever the class saw before. *)
Theorem set_then_get (k : EMetaDataKey) (v : IMetaValuesMap k) (target : Class) (s : State) :
  let s' := snd (ReflectUtils.set k v target s) in
  ReflectUtils.get k target s' = (if truthy v then Some v else None)
  ∧ ReflectUtils.has k target s' = true.
Proof.
  cbv zeta. fold (defined k v target s). split.
  - unfold ReflectUtils.get. by rewrite metadata_defined, getMetadata_define_eq.
  - rewrite has_getMetadata, metadata_defined, getMetadata_define_eq.
    by apply bool_decide_eq_true_2.
Qed.

(** X2: [set(k, v, C)] is not seen under another key, nor from a class that
    does not have [C] in its constructor chain (an ancestor of [C], a
    sibling, an unrelated class). *)
Theorem set_not_seen_elsewhere (k k' : EMetaDataKey) (v : IMetaValuesMap k)
    (target c : Class) (s : State) :
  k ≠ k' ∨ target ∉ constructors c →
  let s' := snd (ReflectUtils.set k v target s) in
  ReflectUtils.get k' c s' = ReflectUtils.get k' c s
  ∧ ReflectUtils.has k' c s' = ReflectUtils.has k' c s.
Proof.
  intros H. cbv zeta. fold (defined k v target s).
  assert (Reflect.getMetadata k' (metadata (defined k v target s)) c
          = Reflect.getMetadata k' (metadata s) c) as Heq.
  { rewrite metadata_defined. destruct H as [H|H].
    - by apply getMetadata_define_ne_key.
    - by apply getMetadata_define_outside. }
  split.
  - unfold ReflectUtils.get. by rewrite Heq.
  - by rewrite !has_getMetadata, Heq.
Qed.

Lemma set_not_seen_elsewhere_witness :
  let s' := snd (ReflectUtils.set Collection "admins"%string Admin initial_state) in
  ReflectUtils.get Collection User s' = ReflectUtils.get Collection User initial_state
  ∧ ReflectUtils.has Collection User s' = ReflectUtils.has Collection User initial_state.
Proof.
  apply (set_not_seen_elsewhere Collection Collection "admins"%string Admin User
           initial_state).
  right. apply (bool_decide_unpack _). by vm_compute.
Defined.

Lemma get_Some_truthy k target s (v : IMetaValuesMap k) :
  ReflectUtils.get k target s = Some v →
  Reflect.getMetadata k (metadata s) target = Some v ∧ truthy v = true.
Proof.
  unfold ReflectUtils.get.
  destruct (Reflect.getMetadata k (metadata s) target) as [w|]; [|done].
  destruct (truthy w) eqn:Ew; [|done]. by intros [= <-].
Qed.

(** X3: a value that [get] returns is truthy and [has] reports its key. *)
Theorem get_value_has (k : EMetaDataKey) (target : Class) (s : State)
    (v : IMetaValuesMap k) :
  ReflectUtils.get k target s = Some v →
  ReflectUtils.has k target s = true ∧ truthy v = true.
Proof.
  intros [Hget Ht]%get_Some_truthy. split; [|done].
  rewrite has_getMetadata, Hget. by apply bool_decide_eq_true_2.
Qed.

Lemma get_value_has_witness :
  let s := snd (ReflectUtils.defineModel User "users" initial_state) in
  ReflectUtils.has Collection User s = true
  ∧ truthy (k := Collection) "users"%string = true.
Proof.
  intros s. apply (get_value_has Collection User s "users"%string).
  vm_compute. reflexivity.
Defined.

(** X4: a class that has no entry of its own under a key reads the entry its
    superclass reads: [get] and [has] agree with the superclass. *)
Theorem subclass_reads_superclass (k : EMetaDataKey) (n : string) (B : Class) (s : State) :
  Reflect.getOwnMetadata k (metadata s) (class_extends n B) = None →
  ReflectUtils.get k (class_extends n B) s = ReflectUtils.get k B s
  ∧ ReflectUtils.has k (class_extends n B) s = ReflectUtils.has k B s.
Proof.
  intros Hown.
  assert (Reflect.getMetadata k (metadata s) (class_extends n B)
          = Reflect.getMetadata k (metadata s) B) as Heq.
  { cbn [Reflect.getMetadata]. by rewrite Hown. }
  split.
  - unfold ReflectUtils.get. by rewrite Heq.
  - by rewrite !has_getMetadata, Heq.
Qed.

Lemma subclass_reads_superclass_witness :
  let s := snd (ReflectUtils.defineModel User "users" initial_state) in
  ReflectUtils.get ObjectType Admin s = ReflectUtils.get ObjectType User s
  ∧ ReflectUtils.has ObjectType Admin s = ReflectUtils.has ObjectType User s.
Proof.
  intros s. apply (subclass_reads_superclass ObjectType "Admin" User s).
  vm_compute. reflexivity.
Defined.

(** ** Models and data mappers *)

Lemma get_defined_eq k (v : IMetaValuesMap k) target s :
  ReflectUtils.get k target (defined k v target s) = if truthy v then Some v else None.
Proof. unfold ReflectUtils.get. by rewrite metadata_defined, getMetadata_define_eq. Qed.

Lemma get_defined_ne_key k k' (v : IMetaValuesMap k) target c s :
  k ≠ k' → ReflectUtils.get k' c (defined k v target s) = ReflectUtils.get k' c s.
Proof.
  intros H. unfold ReflectUtils.get.
  by rewrite metadata_defined, getMetadata_define_ne_key.
Qed.

(** X5: after [defineModel(C, name)], in whatever state, [C] is a model and
    not a data mapper, and the collection name read for [C] is [name], or
    [null] if [name] is the empty string. *)
Theorem defineModel_classifies (target : Class) (name : string) (s : State) :
  let s' := snd (ReflectUtils.defineModel target name s) in
  ReflectUtils.isModel target s' = true
  ∧ ReflectUtils.isDataMapper target s' = false
  ∧ ReflectUtils.get Collection target s'
    = (if bool_decide (name ≠ EmptyString) then Some name else None).
Proof.
  cbv zeta.
  change (snd (ReflectUtils.defineModel target name s))
    with (defined ObjectType model target (defined Collection name target s)).
  unfold ReflectUtils.isModel, ReflectUtils.isDataMapper.
  rewrite get_defined_eq. cbn [truthy]. split; [|split].
  - by apply bool_decide_eq_true_2.
  - by apply bool_decide_eq_false_2.
  - rewrite get_defined_ne_key by done. apply get_defined_eq.
Qed.

(** X6: after [defineDataMapper(C)], in whatever state, [C] is a data mapper
    and no longer a model, while every class keeps the collection name it
    had: marking a model as data mapper does not unregister its collection. *)
Theorem defineDataMapper_classifies (target c : Class) (s : State) :
  let s' := snd (ReflectUtils.defineDataMapper target s) in
  ReflectUtils.isDataMapper target s' = true
  ∧ ReflectUtils.isModel target s' = false
  ∧ ReflectUtils.get Collection c s' = ReflectUtils.get Collection c s
  ∧ ReflectUtils.has Collection c s' = ReflectUtils.has Collection c s.
Proof.
  cbv zeta.
  change (snd (ReflectUtils.defineDataMapper target s))
    with (defined ObjectType data_mapper target s).
  unfold ReflectUtils.isModel, ReflectUtils.isDataMapper.
  rewrite get_defined_eq. cbn [truthy]. split; [|split; [|split]].
  - by apply bool_decide_eq_true_2.
  - by apply bool_decide_eq_false_2.
  - by apply get_defined_ne_key.
  - rewrite !has_getMetadata, metadata_defined.
    by rewrite getMetadata_define_ne_key.
Qed.

(** ** The introspector reads field lists, caches and collection names only *)

Lemma same_model_data_getMetadata s s' k c :
  same_model_data s s' → k = Fields ∨ k = UnpackedFields ∨ k = Collection →
  Reflect.getMetadata k (metadata s') c = Reflect.getMetadata k (metadata s) c.
Proof. intros H Hk. apply getMetadata_ext. intros c'. by apply H. Qed.

Lemma same_model_data_get s s' k c :
  same_model_data s s' → k = Fields ∨ k = UnpackedFields ∨ k = Collection →
  ReflectUtils.get k c s' = ReflectUtils.get k c s.
Proof.
  intros H Hk. unfold ReflectUtils.get.
  by rewrite (same_model_data_getMetadata s s').
Qed.

Lemma same_model_data_getUnpackedOwnFields s s' c :
  same_model_data s s' →
  fst (ReflectUtils.getUnpackedOwnFields c s') = fst (ReflectUtils.getUnpackedOwnFields c s)
  ∧ same_model_data (snd (ReflectUtils.getUnpackedOwnFields c s))
      (snd (ReflectUtils.getUnpackedOwnFields c s')).
Proof.
  intros H. rewrite !getUnpackedOwnFields_eq.
  rewrite (same_model_data_get s s') by auto.
  destruct (ReflectUtils.get UnpackedFields c s) eqn:E; cbn [fst snd]; [done|].
  unfold ReflectUtils.getOwnFields. rewrite (same_model_data_get s s') by auto.
  split; [done|]. intros k c' Hk. rewrite !metadata_defined.
  destruct (decide (k = UnpackedFields)) as [->|Hne].
  - destruct (decide (c = c')) as [->|Hc].
    + by rewrite !getOwnMetadata_define_eq.
    + rewrite !getOwnMetadata_define_ne_class by done. by apply H.
  - rewrite !getOwnMetadata_define_ne_key by done. by apply H.
Qed.

Lemma resolve_walk_step c (cs : list Class) acc s l s1 :
  ReflectUtils.getUnpackedOwnFields c s = (Normal l, s1) →
  for_of (c :: cs) (λ ctr fields,
    let! own := ReflectUtils.getUnpackedOwnFields ctr in ret (fields ++ own)) acc s
  = for_of cs (λ ctr fields,
      let! own := ReflectUtils.getUnpackedOwnFields ctr in ret (fields ++ own))
      (acc ++ l) s1.
Proof.
  intros H. cbn [for_of]. unfold bind at 1. unfold bind at 1. by rewrite H.
Qed.

Lemma same_model_data_walk (cs : list Class) acc s s' :
  same_model_data s s' →
  let walk := for_of cs (λ ctr fields,
    let! own := ReflectUtils.getUnpackedOwnFields ctr in ret (fields ++ own)) acc in
  fst (walk s') = fst (walk s) ∧ same_model_data (snd (walk s)) (snd (walk s')).
Proof.
  cbv zeta. revert acc s s'. induction cs as [|c cs IH]; intros acc s s' H;
    [done|].
  destruct (same_model_data_getUnpackedOwnFields s s' c H) as [Hfst Hsnd].
  destruct (getUnpackedOwnFields_cached c s) as (l & s1 & E & _).
  destruct (getUnpackedOwnFields_cached c s') as (l' & s1' & E' & _).
  rewrite (resolve_walk_step c cs acc s l s1 E).
  rewrite (resolve_walk_step c cs acc s' l' s1' E').
  rewrite E, E' in Hfst, Hsnd. cbn [fst snd] in Hfst, Hsnd. injection Hfst as ->.
  by apply IH.
Qed.

(** X7: the outcome of [collectModelInformation] depends on the raw field
    lists, the resolved-field caches and the collection names only: in two
    states that agree on these (and may differ in object kinds, applied
    flags and prototypes) it returns the same information or throws the same
    error.  A class marked as data mapper is introspected like a model. *)
Theorem collectModelInformation_reads_model_data (target : Class) (s s' : State) :
  same_model_data s s' →
  fst (ReflectUtils.collectModelInformation target s')
  = fst (ReflectUtils.collectModelInformation target s).
Proof.
  intros H. rewrite !collectModelInformation_eq.
  rewrite (same_model_data_get s s') by auto.
  destruct (ReflectUtils.get Collection target s); cbn [fst]; [|done].
  f_equal.
  destruct (same_model_data_walk (constructors target) [] s s' H) as [Hfst _].
  rewrite <- !whileHasParentConstructor_for_of in Hfst.
  change (fst (ReflectUtils.getUnpackedFields target s')
          = fst (ReflectUtils.getUnpackedFields target s)) in Hfst.
  rewrite !getUnpackedFields_resolve in Hfst. cbn [fst] in Hfst. by injection Hfst.
Qed.

Lemma collectModelInformation_reads_model_data_witness :
  let s := snd ((ReflectUtils.defineModel User "users" ;;;
                 ReflectUtils.addOwnField User (string_field "id" true)) initial_state) in
  let s' := snd (ReflectUtils.defineDataMapper User s) in
  fst (ReflectUtils.collectModelInformation User s')
  = fst (ReflectUtils.collectModelInformation User s).
Proof.
  intros s s'. apply (collectModelInformation_reads_model_data User s s').
  intros k c Hk. subst s'.
  change (snd (ReflectUtils.defineDataMapper User s))
    with (defined ObjectType data_mapper User s).
  rewrite metadata_defined. apply getOwnMetadata_define_ne_key.
  destruct Hk as [->|[->| ->]]; discriminate.
Defined.

(** ** More on the field registry *)

#[global] Instance fields_write_preorder target : PreOrder (fields_write target).
Proof.
  split.
  - intros s. by split.
  - intros s1 s2 s3 [H1 H2 H3] [G1 G2 G3]. split; [congruence..|].
    intros k c Hk. by rewrite G3, H3.
Qed.

Lemma addOwnField_fields_write target fieldMeta :
  mrel (fields_write target) (ReflectUtils.addOwnField target fieldMeta).
Proof.
  intros s. rewrite addOwnField_eq.
  destruct (List.find _ _); cbn [snd]; [done|].
  split; [done..|]. intros k c Hk. rewrite metadata_defined.
  destruct Hk as [Hk|Hc].
  - by apply getOwnMetadata_define_ne_key.
  - by apply getOwnMetadata_define_ne_class.
Qed.

(** X8: [addOwnField(C, d)] writes the field list stored on [C] and nothing
    else: the prototypes, the entries of other kinds and the entries of every
    other class (the ancestors of [C] among them) stay as they were.  When
    it throws it has written nothing; when it returns, the list read for [C]
    has [d] appended. *)
Theorem addOwnField_writes_own_list (target : Class) (fieldMeta : IFieldMeta) (s : State) :
  let s' := snd (ReflectUtils.addOwnField target fieldMeta s) in
  fields_write target s s'
  ∧ match fst (ReflectUtils.addOwnField target fieldMeta s) with
    | Throw _ => s' = s
    | Normal _ =>
        ReflectUtils.getOwnFields target s'
        = ReflectUtils.getOwnFields target s ++ [fieldMeta]
    end.
Proof.
  cbv zeta. split; [apply addOwnField_fields_write|].
  rewrite addOwnField_eq.
  destruct (List.find _ _); cbn [fst snd]; [done|]. apply getOwnFields_defined.
Qed.

Lemma find_conflicts_Some fieldMeta (l : list IFieldMeta) f :
  f ∈ l → conflicts fieldMeta f = true →
  ∃ f', List.find (conflicts fieldMeta) l = Some f' ∧ f' ∈ l.
Proof.
  intros Hin Hc. destruct (List.find (conflicts fieldMeta) l) as [f'|] eqn:E.
  - exists f'. split; [done|]. apply List.find_some in E as [E _].
    by apply list_elem_of_In.
  - apply List.find_none with (x := f) in E; [congruence|].
    by apply list_elem_of_In.
Qed.

(** X9: a property name that is visible for a class, on the class itself or
    on an ancestor, cannot be declared on it again: [addOwnField] throws
    the conflict error against a visible field and stores nothing. *)
Theorem addOwnField_rejects_visible_name (target : Class) (f fieldMeta : IFieldMeta)
    (s : State) :
  f ∈ visible_fields target s →
  classPropertyName f = classPropertyName fieldMeta →
  ∃ f', f' ∈ visible_fields target s
        ∧ ReflectUtils.addOwnField target fieldMeta s
          = (Throw (conflict_error target f' fieldMeta), s).
Proof.
  intros Hin Hname.
  destruct (find_conflicts_Some fieldMeta (visible_fields target s) f)
    as (f' & Hfind & Hin'); [done| |].
  - unfold conflicts. rewrite (bool_decide_eq_true_2 _ Hname). apply orb_true_r.
  - exists f'. split; [done|]. by rewrite addOwnField_eq, Hfind.
Qed.

Lemma addOwnField_rejects_visible_name_witness :
  let s := snd (ReflectUtils.addOwnField User (string_field "name" false) initial_state) in
  ∃ f', f' ∈ visible_fields Admin s
        ∧ ReflectUtils.addOwnField Admin (primary_field "name" "admin_name") s
          = (Throw (conflict_error Admin f' (primary_field "name" "admin_name")), s).
Proof.
  intros s.
  apply (addOwnField_rejects_visible_name Admin (string_field "name" false)).
  - vm_compute. left.
  - reflexivity.
Defined.

Lemma Field_eq getReflectedSupportedType typeOrOptions Model propertyKey :
  Field getReflectedSupportedType typeOrOptions Model propertyKey
  = ReflectUtils.addOwnField Model
      (Field_descriptor getReflectedSupportedType typeOrOptions Model propertyKey).
Proof. by destruct typeOrOptions. Qed.

Lemma find_conflicts_app_skip fieldMeta (l1 l2 : list IFieldMeta) :
  (∀ f, f ∈ l1 → conflicts fieldMeta f = false) →
  List.find (conflicts fieldMeta) (l1 ++ l2) = List.find (conflicts fieldMeta) l2.
Proof.
  induction l1 as [|a l1 IH]; intros H; cbn [app List.find]; [done|].
  rewrite (H a) by left. apply IH. intros f Hf. apply H. by right.
Qed.

(** X10: declaring one property twice on a class with [Field] fails the
    second time, whatever the options of the two declarations: the second
    call throws PropertyAlreadyDefined carrying the descriptor of the first
    declaration and the rejected one, and stores nothing. *)
Theorem Field_twice_rejected
    (getReflectedSupportedType : Class → string → TAnyFieldType)
    (options1 options2 : option TAnyFieldOptions) (Model : Class) (propertyKey : string)
    (s s1 : State) :
  Field getReflectedSupportedType options1 Model propertyKey s = (Normal (), s1) →
  Field getReflectedSupportedType options2 Model propertyKey s1
  = (Throw (PropertyAlreadyDefinedError
              (Field_descriptor getReflectedSupportedType options1 Model propertyKey)
              (Field_descriptor getReflectedSupportedType options2 Model propertyKey)),
     s1).
Proof.
  rewrite !Field_eq.
  set (d1 := Field_descriptor _ options1 _ _). set (d2 := Field_descriptor _ options2 _ _).
  rewrite addOwnField_eq.
  destruct (List.find (conflicts d1) (visible_fields Model s)) eqn:E; [done|].
  intros [= <-]. rewrite addOwnField_eq, visible_fields_split.
  rewrite getOwnFields_defined, inherited_fields_defined, <- app_assoc.
  rewrite find_conflicts_app_skip.
  - cbn [app List.find]. unfold conflicts at 1. cbn.
    by rewrite bool_decide_eq_true_2.
  - intros f Hf.
    apply List.find_none with (x := f) in E.
    + unfold conflicts in *. cbn in *. by rewrite andb_false_r in *.
    + apply list_elem_of_In. rewrite visible_fields_split.
      apply elem_of_app. by left.
Qed.

Lemma Field_twice_rejected_witness :
  let s1 := snd (Field reflected_Object None User "name" initial_state) in
  Field reflected_Object (Some (string_options true)) User "name" s1
  = (Throw (PropertyAlreadyDefinedError
              (Field_descriptor reflected_Object None User "name")
              (Field_descriptor reflected_Object (Some (string_options true)) User "name")),
     s1).
Proof.
  intros s1. apply (Field_twice_rejected reflected_Object None _ User "name" initial_state).
  vm_compute. reflexivity.
Defined.

(** X11: a declaration through [Field] never fails with
    PrimaryKeyAlreadyDefined, in whatever state and with whatever options:
    the descriptor it builds has no [isPrimary]. *)
Theorem Field_never_primary_key_error
    (getReflectedSupportedType : Class → string → TAnyFieldType)
    (typeOrOptions : option TAnyFieldOptions) (Model : Class) (propertyKey : string)
    (s : State) (Model' : Class) (prevField currentField : AnyFieldMeta) :
  fst (Field getReflectedSupportedType typeOrOptions Model propertyKey s)
  ≠ Throw (PrimaryKeyAlreadyDefinedError Model' prevField currentField).
Proof.
  rewrite Field_eq, addOwnField_eq.
  destruct (List.find _ _) as [f|]; cbn [fst]; [|done].
  unfold conflict_error. cbn. by rewrite andb_false_r.
Qed.

(** X12: on a class that sees no field list (none stored on it or on an
    ancestor) [getFields] returns the empty list and writes nothing, and
    [addOwnField] accepts any descriptor; the class then reads exactly that
    descriptor, through [getOwnFields] and through [getFields]. *)
Theorem addOwnField_first_field (target : Class) (fieldMeta : IFieldMeta) (s : State) :
  Reflect.getMetadata Fields (metadata s) target = None →
  ReflectUtils.getFields target s = (Normal [], s)
  ∧ ∃ s',
      ReflectUtils.addOwnField target fieldMeta s = (Normal (), s')
      ∧ ReflectUtils.getOwnFields target s' = [fieldMeta]
      ∧ ReflectUtils.getFields target s' = (Normal [fieldMeta], s').
Proof.
  intros H. rewrite getFields_eq, (visible_fields_None target s H).
  split; [done|]. eexists. rewrite addOwnField_eq.
  rewrite (visible_fields_None target s H), (getOwnFields_None target s H).
  cbn [List.find app]. split; [done|]. split; [apply getOwnFields_defined|].
  rewrite getFields_eq, visible_fields_split.
  rewrite getOwnFields_defined, inherited_fields_defined.
  assert (inherited_fields target s = []) as ->; [|done].
  pose proof (visible_fields_None target s H) as Hv.
  rewrite visible_fields_split in Hv. by apply app_eq_nil in Hv as [_ ->].
Qed.

Lemma addOwnField_first_field_witness :
  ReflectUtils.getFields Admin initial_state = (Normal [], initial_state)
  ∧ ∃ s',
      ReflectUtils.addOwnField Admin (string_field "level" false) initial_state
      = (Normal (), s')
      ∧ ReflectUtils.getOwnFields Admin s' = [string_field "level" false]
      ∧ ReflectUtils.getFields Admin s' = (Normal [string_field "level" false], s').
Proof.
  apply (addOwnField_first_field Admin (string_field "level" false) initial_state).
  vm_compute. reflexivity.
Defined.

(** ** More on the resolver and the introspector *)

(** X13: the information that [collectModelInformation] returns is well
    formed: its collection name is the one read for the class and is not
    empty, its field list is not empty, its primary field is the one field
    of the list with [isPrimary], and the list is what [getUnpackedFields]
    returns from then on. *)
Theorem collectModelInformation_result (target : Class) (s s1 : State)
    (info : IModelInformation) :
  ReflectUtils.collectModelInformation target s = (Normal info, s1) →
  ReflectUtils.get Collection target s = Some (collection info)
  ∧ collection info ≠ EmptyString
  ∧ fields info ≠ []
  ∧ List.filter u_isPrimary (fields info) = [primaryField info]
  ∧ primaryField info ∈ fields info
  ∧ u_isPrimary (primaryField info) = true
  ∧ ReflectUtils.getUnpackedFields target s1 = (Normal (fields info), s1).
Proof.
  rewrite collectModelInformation_eq.
  destruct (ReflectUtils.get Collection target s) as [col|] eqn:Ecol; [|done].
  unfold model_information.
  destruct (resolved_fields target (resolve target s)) as [|f fs] eqn:E; [done|].
  destruct (List.filter u_isPrimary (f :: fs)) as [|p [|p2 rest]] eqn:Ef; [done| |done].
  intros [= <- <-]. cbn [collection fields primaryField].
  assert (List.In p (List.filter u_isPrimary (f :: fs))) as Hp by (rewrite Ef; by left).
  apply List.filter_In in Hp as [Hin Hprim].
  split; [done|]. split.
  { pose proof (get_Some_truthy _ _ _ _ Ecol) as [_ Ht]. cbn in Ht.
    by apply bool_decide_eq_true_1 in Ht. }
  split; [done|]. split; [done|]. split; [by apply list_elem_of_In|].
  split; [done|]. rewrite <- E.
  apply getUnpackedFields_cached, resolve_all_cached.
Qed.

Lemma collectModelInformation_result_witness :
  let id := string_field "id" true in
  let s := snd ((ReflectUtils.addOwnField User id ;;;
                 ReflectUtils.defineModel User "users") initial_state) in
  let s1 := snd (ReflectUtils.collectModelInformation User s) in
  let info := {| collection := "users"; primaryField := unpackField id;
                 fields := [unpackField id] |} in
  ReflectUtils.get Collection User s = Some (collection info)
  ∧ collection info ≠ EmptyString
  ∧ fields info ≠ []
  ∧ List.filter u_isPrimary (fields info) = [primaryField info]
  ∧ primaryField info ∈ fields info
  ∧ u_isPrimary (primaryField info) = true
  ∧ ReflectUtils.getUnpackedFields User s1 = (Normal (fields info), s1).
Proof.
  intros id s s1 info. apply (collectModelInformation_result User s s1 info).
  vm_compute. reflexivity.
Defined.

Lemma getUnpackedFields_cold target s :
  Reflect.getMetadata UnpackedFields (metadata s) target = None →
  fst (ReflectUtils.getUnpackedFields target s)
  = Normal (map unpackField (visible_fields target s)).
Proof.
  intros H. unfold ReflectUtils.getUnpackedFields.
  change (map unpackField (visible_fields target s))
    with ([] ++ map unpackField (visible_fields target s)).
  generalize (@nil IUnpackedFieldMeta) as acc. revert s H.
  induction target as [n|n p IH]; intros s H acc; cbn [whileHasParentConstructor].
  - unfold bind at 1. unfold bind at 1. rewrite getUnpackedOwnFields_eq.
    rewrite get_UnpackedFields, H. cbn. by rewrite app_nil_r.
  - unfold bind at 1. unfold bind at 1. rewrite getUnpackedOwnFields_eq.
    rewrite get_UnpackedFields, H. cbv zeta. unfold ret at 1.
    set (l := map unpackField (ReflectUtils.getOwnFields (class_extends n p) s)).
    set (s1 := defined UnpackedFields l (class_extends n p)
                 (logged (class_extends n p) s)).
    assert (Reflect.getMetadata UnpackedFields (metadata s1) p = None) as Hp.
    { unfold s1. rewrite metadata_defined.
      rewrite getMetadata_define_outside by apply not_own_ancestor.
      eapply (getMetadata_None_ancestor _ _ _ _ H). cbn [constructors].
      right. apply constructors_self. }
    rewrite (IH s1 Hp). f_equal.
    assert (visible_fields p s1 = visible_fields p s) as ->.
    { unfold s1. by rewrite visible_fields_defined_outside by apply not_own_ancestor. }
    rewrite <- app_assoc. f_equal.
    rewrite (visible_fields_split (class_extends n p)). cbn [inherited_fields].
    by rewrite map_app.
Qed.

(** X14: on a class that sees no resolved-field cache, [getUnpackedFields]
    returns the resolution of what [getFields] returns: the raw fields
    visible for the class, each mapped through [unpackField], in the same
    order. *)
Theorem getUnpackedFields_resolves_getFields (target : Class) (s : State) :
  Reflect.getMetadata UnpackedFields (metadata s) target = None →
  ∃ raw,
    ReflectUtils.getFields target s = (Normal raw, s)
    ∧ fst (ReflectUtils.getUnpackedFields target s) = Normal (map unpackField raw).
Proof.
  intros H. exists (visible_fields target s).
  split; [apply getFields_eq|by apply getUnpackedFields_cold].
Qed.

Lemma getUnpackedFields_resolves_getFields_witness :
  let s := snd ((ReflectUtils.addOwnField Admin (string_field "level" false) ;;;
                 ReflectUtils.addOwnField User (string_field "name" false))
                  initial_state) in
  ∃ raw,
    ReflectUtils.getFields Admin s = (Normal raw, s)
    ∧ fst (ReflectUtils.getUnpackedFields Admin s) = Normal (map unpackField raw).
Proof.
  intros s. apply (getUnpackedFields_resolves_getFields Admin s).
  vm_compute. reflexivity.
Defined.

Lemma visible_fields_defined_ne_key k (v : IMetaValuesMap k) target c s :
  k ≠ Fields → visible_fields c (defined k v target s) = visible_fields c s.
Proof.
  intros Hk. unfold visible_fields.
  induction (constructors c) as [|a l IH]; cbn [flat_map]; [done|].
  rewrite IH. f_equal. unfold ReflectUtils.getOwnFields.
  by rewrite get_defined_ne_key.
Qed.

Lemma fields_write_getMetadata target s s' k c :
  fields_write target s s' → k ≠ Fields →
  Reflect.getMetadata k (metadata s') c = Reflect.getMetadata k (metadata s) c.
Proof. intros H Hk. apply getMetadata_ext. intros c'. apply H. by left. Qed.

(** X15: declaring a model from scratch.  On a class that sees no field list
    and no cache, register descriptors with pairwise different names, at
    most one of them [isPrimary], then call [defineModel] with a non-empty
    name: every call succeeds, and [collectModelInformation] validates
    exactly the registered descriptors, resolved in declaration order,
    under that name. *)
Theorem declared_model_information (target : Class) (ds : list IFieldMeta)
    (name : string) (s : State) :
  Reflect.getMetadata Fields (metadata s) target = None →
  Reflect.getMetadata UnpackedFields (metadata s) target = None →
  NoDup (map classPropertyName ds) →
  length (List.filter primary ds) ≤ 1 →
  name ≠ EmptyString →
  ∃ s1,
    (forEach ds (ReflectUtils.addOwnField target) ;;;
     ReflectUtils.defineModel target name) s = (Normal (), s1)
    ∧ fst (ReflectUtils.collectModelInformation target s1)
      = model_information target name (map unpackField ds).
Proof.
  intros HF HU Hnd Hp Hname.
  destruct (addOwnField_compatible target ds s) as (s' & Hrun & Hown & Hinh).
  { by apply compatible_intro. }
  { intros d f _ Hf. rewrite visible_fields_None in Hf by done. inversion Hf. }
  set (s1 := defined ObjectType model target (defined Collection name target s')).
  exists s1. split.
  { unfold bind. by rewrite Hrun. }
  assert (visible_fields target s1 = ds) as Hvis.
  { unfold s1. rewrite !visible_fields_defined_ne_key by done.
    rewrite visible_fields_split, Hown, Hinh.
    rewrite (getOwnFields_None target s HF).
    pose proof (visible_fields_None target s HF) as Hv.
    rewrite visible_fields_split in Hv. apply app_eq_nil in Hv as [_ ->].
    by rewrite app_nil_r. }
  assert (Reflect.getMetadata UnpackedFields (metadata s1) target = None) as HU1.
  { unfold s1. rewrite !metadata_defined, !getMetadata_define_ne_key by done.
    rewrite (fields_write_getMetadata target s s'); [done| |done].
    pose proof (mrel_forEach (fields_write target) ds
                  (ReflectUtils.addOwnField target)
                  (addOwnField_fields_write target) s) as Hfw.
    by rewrite Hrun in Hfw. }
  rewrite collectModelInformation_eq.
  assert (ReflectUtils.get Collection target s1 = Some name) as ->.
  { unfold s1. rewrite get_defined_ne_key by done. rewrite get_defined_eq.
    cbn [truthy]. by rewrite bool_decide_eq_true_2. }
  cbn [fst]. f_equal.
  pose proof (getUnpackedFields_cold target s1 HU1) as Hcold.
  rewrite getUnpackedFields_resolve, Hvis in Hcold. cbn [fst] in Hcold.
  by injection Hcold.
Qed.

Lemma declared_model_information_witness :
  let ds := [string_field "id" true; string_field "name" false] in
  ∃ s1,
    (forEach ds (ReflectUtils.addOwnField User) ;;;
     ReflectUtils.defineModel User "users") initial_state = (Normal (), s1)
    ∧ fst (ReflectUtils.collectModelInformation User s1)
      = model_information User "users" (map unpackField ds).
Proof.
  intros ds.
  apply (declared_model_information User ds "users"%string initial_state).
  - vm_compute. reflexivity.
  - vm_compute. reflexivity.
  - apply (bool_decide_unpack _). by vm_compute.
  - cbn. lia.
  - discriminate.
Defined.

(** ** More on the accessor installer *)

(** X16: on a class that sees no field list, no cache and no applied flag,
    [applyFields] returns: it defines nothing on the prototype and sets the
    applied flag of the class. *)
Theorem applyFields_without_fields (target : Class) (s : State) :
  Reflect.getMetadata Fields (metadata s) target = None →
  Reflect.getMetadata UnpackedFields (metadata s) target = None →
  ReflectUtils.get AreFieldsApplied target s ≠ Some true →
  ∃ s',
    ReflectUtils.applyFields target s = (Normal (), s')
    ∧ prototypes s' = prototypes s
    ∧ ReflectUtils.get AreFieldsApplied target s' = Some true.
Proof.
  intros HF HU Hflag.
  pose proof (getUnpackedFields_cold target s HU) as Hcold.
  rewrite (visible_fields_None target s HF) in Hcold.
  rewrite getUnpackedFields_resolve in Hcold. cbn [fst map] in Hcold.
  injection Hcold as Hnil.
  exists (defined AreFieldsApplied true target (resolve target s)).
  split; [|split].
  - unfold ReflectUtils.applyFields. unfold bind at 1. unfold gets.
    rewrite bool_decide_eq_false_2 by done.
    unfold bind at 1. unfold bind at 1.
    by rewrite getUnpackedFields_resolve, Hnil.
  - apply (fill_prototypes _ _ _ (resolve_fill target s)).
  - apply get_defined_eq.
Qed.

Lemma applyFields_without_fields_witness :
  ∃ s',
    ReflectUtils.applyFields User initial_state = (Normal (), s')
    ∧ prototypes s' = prototypes initial_state
    ∧ ReflectUtils.get AreFieldsApplied User s' = Some true.
Proof.
  apply (applyFields_without_fields User initial_state).
  - vm_compute. reflexivity.
  - vm_compute. reflexivity.
  - vm_compute. discriminate.
Defined.

#[global] Instance keeps_applied_true_preorder : PreOrder keeps_applied_true.
Proof.
  split.
  - by intros s H.
  - intros s1 s2 s3 H1 H2 H. by apply H2, H1.
Qed.

Lemma keeps_applied_true_same_flags s s' :
  (∀ c, Reflect.getOwnMetadata AreFieldsApplied (metadata s') c
        = Reflect.getOwnMetadata AreFieldsApplied (metadata s) c) →
  keeps_applied_true s s'.
Proof. intros H Hs c v. rewrite H. apply Hs. Qed.

Lemma keeps_applied_true_defined k (v : IMetaValuesMap k) target s :
  k ≠ AreFieldsApplied → keeps_applied_true s (defined k v target s).
Proof.
  intros Hk. apply keeps_applied_true_same_flags. intros c.
  rewrite metadata_defined. by apply getOwnMetadata_define_ne_key.
Qed.

Lemma keeps_applied_true_defined_true target s :
  keeps_applied_true s (defined AreFieldsApplied true target s).
Proof.
  intros Hs c v. rewrite metadata_defined.
  destruct (decide (target = c)) as [->|Hne].
  - rewrite getOwnMetadata_define_eq. by intros [= <-].
  - rewrite getOwnMetadata_define_ne_class by done. apply Hs.
Qed.

Lemma keeps_applied_true_fill cs s s' : cache_fill cs s s' → keeps_applied_true s s'.
Proof. intros H. apply keeps_applied_true_same_flags. intros c. by apply H. Qed.

Lemma keeps_applied_true_applyFields target :
  mrel keeps_applied_true (ReflectUtils.applyFields target).
Proof.
  unfold ReflectUtils.applyFields.
  apply mrel_bind; [apply _|apply mrel_gets, _|]. intros applied.
  destruct (bool_decide (applied = Some true)); [apply mrel_ret, _|].
  apply mrel_bind; [apply _| |].
  { intros s. eapply keeps_applied_true_fill, getUnpackedFields_fill. }
  intros fs. apply mrel_bind; [apply _| |].
  - apply mrel_forEach; [apply _|]. intros f s.
    apply keeps_applied_true_same_flags. intros c.
    unfold defineProperty_prototype. by destruct (Object_defineProperty _ _ _).
  - intros _ s. apply keeps_applied_true_defined_true.
Qed.

Lemma keeps_applied_true_perform c s : keeps_applied_true s (perform c s).
Proof.
  destruct c as [t f|t|t|t col|t|t|t|t]; cbn [perform].
  - rewrite addOwnField_eq. destruct (List.find _ _); cbn [snd]; [done|].
    by apply keeps_applied_true_defined.
  - apply keeps_applied_true_applyFields.
  - rewrite collectModelInformation_eq.
    destruct (ReflectUtils.get Collection t s); cbn [snd]; [|done].
    eapply keeps_applied_true_fill, resolve_fill.
  - change (snd (ReflectUtils.defineModel t col s))
      with (defined ObjectType model t (defined Collection col t s)).
    etrans.
    + by apply (keeps_applied_true_defined Collection col t s).
    + by apply (keeps_applied_true_defined ObjectType model t).
  - by apply (keeps_applied_true_defined ObjectType data_mapper t s).
  - by rewrite getFields_eq.
  - eapply keeps_applied_true_fill, getUnpackedOwnFields_fill.
  - eapply keeps_applied_true_fill, getUnpackedFields_fill.
Qed.

Lemma keeps_applied_true_run calls s : keeps_applied_true s (run calls s).
Proof.
  revert s. induction calls as [|c calls IH]; intros s; cbn [run fold_left]; [done|].
  etrans; [apply keeps_applied_true_perform|apply IH].
Qed.

(** Where no flag is stored as [false], a flag seen set on a class is seen
    set on every class that has it in its constructor chain. *)
Lemma applied_seen_by_descendants s B C :
  applied_only_true s →
  Reflect.getMetadata AreFieldsApplied (metadata s) B = Some true →
  B ∈ constructors C →
  Reflect.getMetadata AreFieldsApplied (metadata s) C = Some true.
Proof.
  intros Hs HB. induction C as [n|n p IH]; cbn [constructors]; intros HC.
  - apply list_elem_of_singleton in HC as ->. done.
  - apply elem_of_cons in HC as [->|HC]; [done|].
    cbn [Reflect.getMetadata].
    destruct (Reflect.getOwnMetadata AreFieldsApplied (metadata s) (class_extends n p))
      as [v|] eqn:E; [|by apply IH].
    by rewrite (Hs _ _ E).
Qed.

(** X17: in a program that starts from the empty registry and only calls the
    registry, once [applyFields(B)] has returned, [applyFields(C)] does
    nothing for every class [C] that has [B] in its constructor chain, at
    once and after any further calls: the applied flag of a class also
    guards its subclasses. *)
Theorem applyFields_skips_descendants (calls calls' : list Call) (B C : Class)
    (s1 : State) :
  ReflectUtils.applyFields B (run calls initial_state) = (Normal (), s1) →
  B ∈ constructors C →
  let s2 := run calls' s1 in
  ReflectUtils.applyFields C s2 = (Normal (), s2).
Proof.
  intros Hrun HBC. cbv zeta. apply applyFields_applied.
  apply (applied_seen_by_descendants _ B); [| |done].
  - apply keeps_applied_true_run.
    replace s1 with (perform (call_applyFields B) (run calls initial_state))
      by (cbn [perform]; by rewrite Hrun).
    apply keeps_applied_true_perform, keeps_applied_true_run.
    intros c v. unfold Reflect.getOwnMetadata. cbn. by rewrite lookup_empty.
  - apply (step_applied _ _ (api_step_run calls' s1)).
    by apply applyFields_normal in Hrun.
Qed.

Lemma applyFields_skips_descendants_witness :
  let s1 := snd (ReflectUtils.applyFields User (run [] initial_state)) in
  let s2 := run [call_addOwnField Admin (string_field "level" false)] s1 in
  ReflectUtils.applyFields Admin s2 = (Normal (), s2).
Proof.
  intros s1 s2.
  apply (applyFields_skips_descendants [] _ User Admin s1).
  - vm_compute. reflexivity.
  - apply (bool_decide_unpack _). by vm_compute.
Defined.

#[global] Instance same_prototypes_preorder : PreOrder same_prototypes.
Proof.
  split.
  - by intros s.
  - intros s1 s2 s3 H1 H2. unfold same_prototypes in *. congruence.
Qed.

Lemma same_prototypes_applyFields target :
  mrel same_prototypes (ReflectUtils.applyFields target).
Proof.
  unfold ReflectUtils.applyFields.
  apply mrel_bind; [apply _|apply mrel_gets, _|]. intros applied.
  destruct (bool_decide (applied = Some true)); [apply mrel_ret, _|].
  apply mrel_bind; [apply _| |].
  { intros s. apply (fill_prototypes _ _ _ (getUnpackedFields_fill target s)). }
  intros fs. apply mrel_bind; [apply _| |].
  - apply mrel_forEach; [apply _|]. intros f s.
    by rewrite defineProperty_accessor_attributes.
  - by intros _ s.
Qed.

Lemma same_prototypes_perform c s : same_prototypes s (perform c s).
Proof.
  destruct c as [t f|t|t|t col|t|t|t|t]; cbn [perform].
  - rewrite addOwnField_eq. by destruct (List.find _ _).
  - apply same_prototypes_applyFields.
  - rewrite collectModelInformation_eq.
    destruct (ReflectUtils.get Collection t s); cbn [snd]; [|done].
    apply (fill_prototypes _ _ _ (resolve_fill t s)).
  - done.
  - done.
  - by rewrite getFields_eq.
  - apply (fill_prototypes _ _ _ (getUnpackedOwnFields_fill t s)).
  - apply (fill_prototypes _ _ _ (getUnpackedFields_fill t s)).
Qed.

(** X18: no call of the registry ever defines a property on a prototype:
    after any sequence of calls, from any state, the prototypes are as they
    were.  ([applyFields] is the only member that calls
    [Object.defineProperty], and that call throws.) *)
Theorem registry_never_defines_properties (calls : list Call) (s : State) :
  prototypes (run calls s) = prototypes s.
Proof.
  revert s. induction calls as [|c calls IH]; intros s; cbn [run fold_left]; [done|].
  etrans; [apply IH|]. apply same_prototypes_perform.
Qed.

(** X19: resolution depends on the order of the calls.  When a class [B] is
    resolved while a subclass [C] of it has no cache of its own, [C] is
    served from the cache of [B] from then on: [getUnpackedOwnFields(C)]
    returns the resolved list of [B], whatever fields are registered on [C],
    and [getUnpackedFields(C)] returns that list followed by the list of
    [getUnpackedFields(B)]. *)
Theorem superclass_cache_serves_subclass (n : string) (B : Class) (s : State) :
  Reflect.getOwnMetadata UnpackedFields (metadata s) (class_extends n B) = None →
  ∃ l s1,
    ReflectUtils.getUnpackedFields B s = (Normal l, s1)
    ∧ ReflectUtils.getUnpackedOwnFields (class_extends n B) s1
      = (Normal (cached B s1), s1)
    ∧ ReflectUtils.getUnpackedFields (class_extends n B) s1
      = (Normal (cached B s1 ++ l), s1).
Proof.
  intros Hown.
  exists (resolved_fields B (resolve B s)), (resolve B s).
  split; [apply getUnpackedFields_resolve|].
  pose proof (resolve_all_cached B s) as Hall.
  pose proof (resolve_fill B s) as Hfill.
  assert (Reflect.getOwnMetadata UnpackedFields (metadata (resolve B s))
            (class_extends n B) = None) as Hown1.
  { rewrite (fill_outside _ _ _ Hfill); [done|apply not_own_ancestor]. }
  assert (is_Some (Reflect.getMetadata UnpackedFields (metadata (resolve B s)) B))
    as [lB HB].
  { unfold all_cached in Hall. rewrite Forall_forall in Hall.
    apply Hall, constructors_self. }
  assert (Reflect.getMetadata UnpackedFields (metadata (resolve B s))
            (class_extends n B) = Some lB) as HC.
  { cbn [Reflect.getMetadata]. by rewrite Hown1. }
  rewrite (cached_seen B _ lB HB). split.
  - by rewrite getUnpackedOwnFields_eq, get_UnpackedFields, HC.
  - rewrite getUnpackedFields_cached.
    + unfold resolved_fields at 1. cbn [constructors flat_map].
      by rewrite (cached_seen _ _ lB HC).
    + cbn [constructors]. constructor; [by exists lB|done].
Qed.

Lemma superclass_cache_serves_subclass_witness :
  let s := snd ((ReflectUtils.addOwnField Admin (string_field "level" false) ;;;
                 ReflectUtils.addOwnField User (string_field "name" false))
                  initial_state) in
  ∃ l s1,
    ReflectUtils.getUnpackedFields User s = (Normal l, s1)
    ∧ ReflectUtils.getUnpackedOwnFields Admin s1 = (Normal (cached User s1), s1)
    ∧ ReflectUtils.getUnpackedFields Admin s1 = (Normal (cached User s1 ++ l), s1).
Proof.
  intros s. apply (superclass_cache_serves_subclass "Admin" User s).
  vm_compute. reflexivity.
Defined.
